(** * fstest: an in-memory file system and a deep file-system comparator

    A shallow embedding of [fstest.go] (package [fstest] of
    dispatchrun/fstest) and of the parts of Go's libraries that the
    package calls: [io/fs], [errors], [path], [unicode/utf8] and
    [testing/fstest] of the standard library, and the two helpers
    [fsinfo] and [fslink].

    - Go's [error] interface is an inductive type that has [nil] among its
      values, and [==] on errors is the equality of these values.  That is
      Go's [==] on the error variables of the libraries ([io.EOF],
      [fs.ErrNotExist], ...) and on the numbers of [syscall.Errno].  An
      error that a call allocates ([&fs.PathError{...}], [errors.New],
      [fmt.Errorf]) is in Go equal to itself only, so that two of them
      from two calls differ even when they are built alike: a property
      that needs the errors of two calls to be equal is stated for the
      former kind ([is_sentinel]).  Of the errors here, [syscall.Errno]
      alone has an [Is] method.
    - [fs.FileMode] is an unsigned 32-bit integer, embedded as [Z], with
      its masks written with [Z.land] and [Z.lor].
    - A file system ([fs.FS]) is a record of operations, each returning
      Go's pair of a value and an error; an open file is a state of the
      file system's handle type, and [Read] returns the next state.  What
      an operation returns depends on its arguments and on that state
      only.
    - [MapFS] is a [gmap] from paths to [MapFile]s; a path that is absent
      reads as Go's nil pointer.
    - The comparator runs in a small monad that records every call made on
      either file system, and whose results are a returned value, a panic,
      or the exhaustion of the fuel that bounds the loop of [equalData]
      and the recursion of [equalDir].

    [TestFS], [MapFS.Glob] and [MapFS.ReadFile] only hand their arguments
    to [testing/fstest] and are left out. *)

From Stdlib Require Import ZArith Lia Bool List.
From Stdlib Require Import Strings.Byte Strings.Ascii Strings.String.
From stdpp Require Import base decidable option list strings gmap.

Local Open Scope string_scope.
Local Open Scope list_scope.
Local Open Scope Z_scope.

(** ** Bytes and strings *)

#[global] Instance byte_eq_dec : EqDecision byte := Byte.byte_eq_dec.

(** [bytes.Equal]. *)
Definition bytes_Equal (a b : list byte) : bool := bool_decide (a = b).

(** ** [fs.FileMode] *)

Module FileMode.

Definition t := Z.

Definition ModeDir : t := Z.shiftl 1 31.
Definition ModeAppend : t := Z.shiftl 1 30.
Definition ModeExclusive : t := Z.shiftl 1 29.
Definition ModeTemporary : t := Z.shiftl 1 28.
Definition ModeSymlink : t := Z.shiftl 1 27.
Definition ModeDevice : t := Z.shiftl 1 26.
Definition ModeNamedPipe : t := Z.shiftl 1 25.
Definition ModeSocket : t := Z.shiftl 1 24.
Definition ModeSetuid : t := Z.shiftl 1 23.
Definition ModeSetgid : t := Z.shiftl 1 22.
Definition ModeCharDevice : t := Z.shiftl 1 21.
Definition ModeSticky : t := Z.shiftl 1 20.
Definition ModeIrregular : t := Z.shiftl 1 19.

Definition ModeType : t :=
  Z.lor ModeDir (Z.lor ModeSymlink (Z.lor ModeNamedPipe (Z.lor ModeSocket
    (Z.lor ModeDevice (Z.lor ModeCharDevice ModeIrregular))))).

(** 0777 *)
Definition ModePerm : t := 511.

Definition IsDir (m : t) : bool := negb (Z.land m ModeDir =? 0).
Definition Perm (m : t) : t := Z.land m ModePerm.
(** [Type] is a reserved word here, hence [Type_]. *)
Definition Type_ (m : t) : t := Z.land m ModeType.

End FileMode.

Import FileMode.

(** Octal permission constants used by the package. *)
Definition perm_0400 : Z := 256.
Definition perm_0700 : Z := 448.
Definition perm_0555 : Z := 365.
Definition perm_0644 : Z := 420.
Definition perm_0666 : Z := 438.
Definition perm_0755 : Z := 493.

(** ** Errors *)

(** Operands of a formatted message that are not errors. *)
Inductive fmtArg :=
| ArgInt (n : Z)
| ArgStr (s : string)
| ArgBytes (b : list byte)
| ArgMode (m : FileMode.t)
| ArgTime (t : Z).

#[global] Instance fmtArg_eq_dec : EqDecision fmtArg.
Proof. solve_decision. Defined.

(** The values of Go's [error] interface that this package meets.
    - [nil_error]: the nil interface value;
    - [ErrorsNew text]: a sentinel made by [errors.New];
    - [PathError op path err]: [&fs.PathError{op, path, err}], whose
      [Unwrap] is [err];
    - [Errorf format args]: [fmt.Errorf] without an error operand;
    - [ErrorfV format want got]: [fmt.Errorf] whose [%v] operands are the
      two errors [want] and [got] (it does not wrap them);
    - [ErrorfW err]: [fmt.Errorf("%w", err)], whose [Unwrap] is [err];
    - [Errno code]: a [syscall.Errno], the cause that the file systems of
      the operating system put in their [fs.PathError]s; it wraps nothing
      and has an [Is] method. *)
Inductive error :=
| nil_error
| ErrorsNew (text : string)
| PathError (Op Path : string) (Err : error)
| Errorf (format : string) (args : list fmtArg)
| ErrorfV (format : string) (want got : error)
| ErrorfW (Err : error)
| Errno (code : Z).

#[global] Instance error_eq_dec : EqDecision error.
Proof. solve_decision. Defined.

Definition is_nil (e : error) : bool :=
  match e with nil_error => true | _ => false end.

Definition ErrInvalid : error := ErrorsNew "invalid argument".
Definition ErrPermission : error := ErrorsNew "permission denied".
Definition ErrExist : error := ErrorsNew "file already exists".
Definition ErrNotExist : error := ErrorsNew "file does not exist".
Definition ErrClosed : error := ErrorsNew "file already closed".
Definition EOF : error := ErrorsNew "EOF".
Definition ErrUnsupported : error := ErrorsNew "unsupported operation".

(** The numbers of [syscall] on Linux. *)
Definition EPERM : Z := 1.
Definition ENOENT : Z := 2.
Definition EACCES : Z := 13.
Definition EEXIST : Z := 17.
Definition ENOSYS : Z := 38.
Definition ENOTEMPTY : Z := 39.
Definition ENOTSUP : Z := 95.
Definition EOPNOTSUPP : Z := 95.

(** [syscall.Errno.Is] *)
Definition Errno_Is (e : Z) (target : error) : bool :=
  if bool_decide (target = ErrPermission) then (e =? EACCES) || (e =? EPERM)
  else if bool_decide (target = ErrExist) then
    (e =? EEXIST) || (e =? ENOTEMPTY)
  else if bool_decide (target = ErrNotExist) then e =? ENOENT
  else if bool_decide (target = ErrUnsupported) then
    (e =? ENOSYS) || (e =? ENOTSUP) || (e =? EOPNOTSUPP)
  else false.

(** The method [Is(error) bool] of an error; only [syscall.Errno] has
    one. *)
Definition error_Is (err target : error) : bool :=
  match err with
  | Errno e => Errno_Is e target
  | _ => false
  end.

(** [errors.Unwrap]. *)
Definition errors_Unwrap (err : error) : error :=
  match err with
  | PathError _ _ cause => cause
  | ErrorfW cause => cause
  | _ => nil_error
  end.

(** The loop of [errors.Is]: walk the chain of [err]; a link matches when
    it is [target] or when its [Is] method accepts [target]. *)
Fixpoint errors_is (err target : error) : bool :=
  if bool_decide (err = target) || error_Is err target then true
  else match err with
       | PathError _ _ cause | ErrorfW cause =>
           if is_nil cause then false else errors_is cause target
       | _ => false
       end.

(** [errors.Is]. *)
Definition errors_Is (err target : error) : bool :=
  if is_nil err || is_nil target then bool_decide (err = target)
  else errors_is err target.

(** [unwrap] (fstest.go): the root cause of an error chain. *)
Fixpoint unwrap (err : error) : error :=
  match err with
  | PathError _ _ cause | ErrorfW cause =>
      if is_nil cause then err else unwrap cause
  | _ => err
  end.

(** [equalErrorf] (fstest.go); the message it formats is passed already
    built, as the value [fmt.Errorf] returns. *)
Definition equalErrorf (name : string) (msg : error) : error :=
  PathError "equal" name msg.

(** ** Times, file information, directory entries *)

(** A [time.Time] as the instant it denotes, in nanoseconds since the zero
    time: [IsZero] and [Equal] look at nothing else. *)
Definition Time := Z.
Definition Time_IsZero (t : Time) : bool := t =? 0.
Definition Time_Equal (t u : Time) : bool := t =? u.

(** What the comparator reads of an [fs.FileInfo]: its methods [Name],
    [Size], [Mode], [ModTime] and [IsDir], and the access and change
    times that [fsinfo.AccessTime] and [fsinfo.ChangeTime] extract from
    it (the zero time when the file system does not report them). *)
Record FileInfo := mkFileInfo {
  fi_Name : string;
  fi_Size : Z;
  fi_Mode : FileMode.t;
  fi_ModTime : Time;
  fi_IsDir : bool;
  fi_AccessTime : Time;
  fi_ChangeTime : Time
}.

(** What the comparator reads of an [fs.DirEntry]. *)
Record DirEntry := mkDirEntry {
  de_Name : string;
  de_Type : FileMode.t
}.

#[global] Instance FileInfo_eq_dec : EqDecision FileInfo.
Proof. solve_decision. Defined.

#[global] Instance DirEntry_eq_dec : EqDecision DirEntry.
Proof. solve_decision. Defined.

(** ** The file-system capability

    [fs_Open fsys name] is [fsys.Open(name)], [fs_Stat fsys name] is
    [fs.Stat(fsys, name)], [fs_ReadDir fsys name] is
    [fs.ReadDir(fsys, name)] and [fslink_ReadLink fsys name] is
    [fslink.ReadLink(fsys, name)].  Each returns Go's pair of a value
    and an error; a nil file or a nil file information is [None].
    [file_Read fsys f n] is [f.Read(p)] for a buffer [p] of length [n]:
    the next state of the file, the bytes stored in [p] (their number is
    the count that [Read] returns) and the error. *)
Record FS := mkFS {
  File : Type;
  fs_Open : string -> option File * error;
  fs_Stat : string -> option FileInfo * error;
  fs_ReadDir : string -> list DirEntry * error;
  fslink_ReadLink : string -> string * error;
  file_Read : File -> nat -> File * (list byte * error)
}.

(** ** The monad of the comparator *)

Inductive side := Source | Target.

(** One call on one of the two file systems, or on a file opened there. *)
Inductive event :=
| EvReadDir (s : side) (name : string)
| EvStat (s : side) (name : string)
| EvOpen (s : side) (name : string)
| EvReadLink (s : side) (name : string)
| EvRead (s : side) (len : nat)
| EvClose (s : side) (name : string).

Inductive outcome (A : Type) :=
| Return (a : A)
| Panic (reason : string)
| OutOfFuel.

Arguments Return {A} a.
Arguments Panic {A} reason.
Arguments OutOfFuel {A}.

(** The calls made so far, oldest first, and how the computation ended. *)
Definition M (A : Type) : Type := list event * outcome A.

Definition ret {A} (a : A) : M A := ([], Return a).

Definition bind {A B} (m : M A) (k : A -> M B) : M B :=
  match m with
  | (tr, Return a) => let (tr', r) := k a in (tr ++ tr', r)
  | (tr, Panic reason) => (tr, Panic reason)
  | (tr, OutOfFuel) => (tr, OutOfFuel)
  end.

(** Make a call: record it, and hand back what it returned. *)
Definition call {A} (ev : event) (a : A) : M A := ([ev], Return a).

Definition panic {A} (reason : string) : M A := ([], Panic reason).

Definition out_of_fuel {A} : M A := ([], OutOfFuel).

(** [defer]: the calls [evs] run when [m] is left, however it is left. *)
Definition defer {A} (evs : list event) (m : M A) : M A :=
  (fst m ++ evs, snd m).

Definition trace {A} (m : M A) : list event := fst m.
Definition result {A} (m : M A) : outcome A := snd m.

#[global] Instance M_ret : MRet M := @ret.
#[global] Instance M_bind : MBind M := fun A B k m => bind m k.

(** A method called on a nil interface value. *)
Definition nil_dereference : string :=
  "runtime error: invalid memory address or nil pointer dereference".

Definition index_out_of_range : string :=
  "runtime error: index out of range".

(** [if err == nil { defer file.Close() }], followed by the rest [m] of the
    function.  Without an error, the method [Close] of the file is taken
    there, which panics for a nil file, and is called when [m] is left;
    with an error nothing is deferred. *)
Definition defer_Close {A F} (sd : side) (name : string) (file : option F)
    (err : error) (m : M A) : M A :=
  if is_nil err then
    match file with
    | Some _ => defer [EvClose sd name] m
    | None => panic nil_dereference
    end
  else m.

(** ** Package [path] *)

Definition slash : ascii := "/"%char.

(** The elements of a path between its slashes: [a/b] gives [a; b], the
    empty string gives one empty element. *)
Fixpoint split_path (s : string) : list string :=
  match s with
  | EmptyString => [EmptyString]
  | String c rest =>
      if bool_decide (c = slash) then EmptyString :: split_path rest
      else match split_path rest with
           | elem :: elems => String c elem :: elems
           | [] => [String c EmptyString]
           end
  end.

Fixpoint join_path (elems : list string) : string :=
  match elems with
  | [] => EmptyString
  | [elem] => elem
  | elem :: elems' => (elem ++ "/" ++ join_path elems')%string
  end.

(** One step of [path.Clean], on the elements kept so far (latest first):
    empty and [.] elements are dropped, [..] removes the latest element
    when there is one to remove and is kept in a path that is not rooted
    otherwise. *)
Definition clean_step (rooted : bool) (kept : list string) (elem : string)
  : list string :=
  if bool_decide (elem = "") || bool_decide (elem = ".") then kept
  else if bool_decide (elem = "..") then
    match kept with
    | top :: kept' =>
        if bool_decide (top = "..") then elem :: kept else kept'
    | [] => if rooted then kept else [elem]
    end
  else elem :: kept.

(** [path.Clean] *)
Definition path_Clean (p : string) : string :=
  match p with
  | EmptyString => "."
  | String c _ =>
      let rooted := bool_decide (c = slash) in
      let kept := rev (fold_left (clean_step rooted) (split_path p) []) in
      if rooted then ("/" ++ join_path kept)%string
      else match kept with [] => "." | _ => join_path kept end
  end.

(** [path.Join] of two elements. *)
Definition path_Join (a b : string) : string :=
  match filter (fun e => e <> "") [a; b] with
  | [] => ""
  | elems => path_Clean (join_path elems)
  end.

(** [path.Base] *)
Definition path_Base (p : string) : string :=
  match filter (fun e => e <> "") (split_path p) with
  | [] => match p with EmptyString => "." | _ => "/" end
  | elems => List.last elems ""
  end.

(** ** The comparator *)

Definition equalFSMinSize : Z := 1024.
Definition equalFSBufSize : Z := 32768.

(** [make([]byte, n)] *)
Definition make_bytes (n : Z) : list byte := repeat x00 (Z.to_nat n).

(** [len(buf)] *)
Definition len {A} (l : list A) : Z := Z.of_nat (length l).

(** [equalTime] *)
Definition equalTime (typ : string) (source target : Time) : error :=
  if negb (Time_IsZero source) && negb (Time_IsZero target)
     && negb (Time_Equal source target)
  then Errorf "file %s times mismatch: want=%v got=%v"
         [ArgStr typ; ArgTime source; ArgTime target]
  else nil_error.

(** The part of [equalStat] that follows the two calls of [fs.Stat]
    (lines 271-310). *)
Definition equalStatInfo (sourceInfo targetInfo : FileInfo) : error :=
  let sourceMode := fi_Mode sourceInfo in
  let targetMode := fi_Mode targetInfo in
  let sourceType := Type_ sourceMode in
  let targetType := Type_ targetMode in
  if negb (sourceType =? targetType) then
    Errorf "file types mismatch: want=%s got=%s"
      [ArgMode sourceType; ArgMode targetType]
  else
  let sourcePerm := Perm sourceMode in
  let targetPerm := Perm targetMode in
  if negb (sourcePerm =? 0) && negb (targetPerm =? 0)
     && negb (sourcePerm =? targetPerm) then
    Errorf "file modes mismatch: want=%s got=%s"
      [ArgMode sourceMode; ArgMode targetMode]
  else
  let err := equalTime "modification"
               (fi_ModTime sourceInfo) (fi_ModTime targetInfo) in
  if negb (is_nil err) then err else
  let err := equalTime "access"
               (fi_AccessTime sourceInfo) (fi_AccessTime targetInfo) in
  if negb (is_nil err) then err else
  let err := equalTime "change"
               (fi_ChangeTime sourceInfo) (fi_ChangeTime targetInfo) in
  if negb (is_nil err) then err else
  if negb (fi_IsDir sourceInfo) then
    let sourceSize := fi_Size sourceInfo in
    let targetSize := fi_Size targetInfo in
    if negb (sourceSize =? targetSize) then
      Errorf "files sizes mismatch: want=%d got=%d"
        [ArgInt sourceSize; ArgInt targetSize]
    else nil_error
  else nil_error.

Section Comparator.

Variables source target : FS.

(** [equalStat] *)
Definition equalStat (name : string) : M error :=
  '(sourceInfo, err) ← call (EvStat Source name) (fs_Stat source name);
  if negb (is_nil err) then ret err else
  '(targetInfo, err) ← call (EvStat Target name) (fs_Stat target name);
  if negb (is_nil err) then ret err else
  match sourceInfo, targetInfo with
  | Some sourceInfo, Some targetInfo =>
      ret (equalStatInfo sourceInfo targetInfo)
  | _, _ => panic nil_dereference
  end.

(** [equalSymlink] *)
Definition equalSymlink (name : string) : M error :=
  '(sourceLink, err) ←
    call (EvReadLink Source name) (fslink_ReadLink source name);
  if negb (is_nil err) then ret err else
  '(targetLink, err) ←
    call (EvReadLink Target name) (fslink_ReadLink target name);
  if negb (is_nil err) then ret err else
  if negb (bool_decide (sourceLink = targetLink)) then
    ret (equalErrorf name
           (Errorf "symbolic links mimatch: want=%q got=%q"
              [ArgStr sourceLink; ArgStr targetLink]))
  else ret nil_error.

(** [equalNode] *)
Definition equalNode (name : string) : M error :=
  err ← equalStat name;
  if negb (is_nil err) then ret (equalErrorf name (ErrorfW err))
  else ret nil_error.

(** The loop of [equalData]; [len1] and [len2] are the lengths of
    [buf1] and [buf2].  A nil file panics where its [Read] is called.
    [b1] and [b2] are the slices [buf1[:n1]] and [buf2[:n2]] of a [Read]
    that keeps the contract of [io.Reader] and returns no more bytes than
    its buffer has; the properties that rest on it say so ([ends]). *)
Fixpoint equalData_loop (fuel : nat)
    (sourceFile : option (File source)) (targetFile : option (File target))
    (len1 len2 : nat) : M error :=
  match fuel with
  | O => out_of_fuel
  | S fuel' =>
      match sourceFile with
      | None => panic nil_dereference
      | Some sf =>
          '(sf', (b1, err1)) ←
            call (EvRead Source len1) (file_Read source sf len1);
          match targetFile with
          | None => panic nil_dereference
          | Some tf =>
              '(tf', (b2, err2)) ←
                call (EvRead Target len2) (file_Read target tf len2);
              let n1 := length b1 in
              let n2 := length b2 in
              if negb (bool_decide (n1 = n2)) then
                ret (Errorf "file read size mismatch: want=%d got=%d"
                       [ArgInt (Z.of_nat n1); ArgInt (Z.of_nat n2)])
              else if negb (bytes_Equal b1 b2) then
                ret (Errorf "file content mismatch: want=%q got=%q"
                       [ArgBytes b1; ArgBytes b2])
              else if negb (bool_decide (err1 = err2)) then
                ret (ErrorfV "file read error mismatch: want=%v got=%v"
                       err1 err2)
              else if negb (is_nil err1) then ret nil_error
              else equalData_loop fuel' (Some sf') (Some tf') len1 len2
          end
      end
  end.

(** [equalData] *)
Definition equalData (fuel : nat)
    (sourceFile : option (File source)) (targetFile : option (File target))
    (buf : list byte) : M error :=
  let buf1 := firstn (length buf / 2) buf in
  let buf2 := skipn (length buf / 2) buf in
  equalData_loop fuel sourceFile targetFile (length buf1) (length buf2).

(** [equalFile] *)
Definition equalFile (fuel : nat) (name : string) (buf : list byte)
  : M error :=
  err ← equalStat name;
  if negb (is_nil err) then ret (equalErrorf name (ErrorfW err)) else
  '(sourceFile, err1) ← call (EvOpen Source name) (fs_Open source name);
  defer_Close Source name sourceFile err1
    ('(targetFile, err2) ← call (EvOpen Target name) (fs_Open target name);
     defer_Close Target name targetFile err2
       (if (negb (is_nil err1) || negb (is_nil err2))
           && negb (errors_Is err1 (unwrap err2))
        then
          ret (equalErrorf name
                 (ErrorfV "file open error mismatch: want=%v got=%v"
                    err1 err2))
        else
          err ← equalData fuel sourceFile targetFile buf;
          if negb (is_nil err) then ret (equalErrorf name (ErrorfW err))
          else ret nil_error)).

End Comparator.

Section Walk.

Variables source target : FS.

(** The body of the loop [for i := range sourceEntries] of [equalDir],
    from index [i] on; [recurse] is [equalDir] itself, called on a
    subdirectory. *)
Fixpoint equalEntries (recurse : string -> list byte -> M error)
    (fuel : nat) (name : string) (buf : list byte) (i : nat)
    (sourceEntries targetEntries : list DirEntry) : M error :=
  match sourceEntries with
  | [] => ret nil_error
  | sourceEntry :: sourceEntries' =>
      match targetEntries with
      | [] => panic index_out_of_range
      | targetEntry :: targetEntries' =>
          let sourceName := de_Name sourceEntry in
          let targetName := de_Name targetEntry in
          if negb (bool_decide (sourceName = targetName)) then
            ret (equalErrorf name
                   (Errorf "name of directory entry %d mismatch: want=%q got=%q"
                      [ArgInt (Z.of_nat i); ArgStr sourceName;
                       ArgStr targetName]))
          else
          let sourceType := de_Type sourceEntry in
          let targetType := de_Type targetEntry in
          if negb (sourceType =? targetType) then
            ret (equalErrorf name
                   (Errorf "name of directory entry %q mismatch: want=%v got=%v"
                      [ArgStr sourceName; ArgMode sourceType;
                       ArgMode targetType]))
          else
          let filePath := path_Join name sourceName in
          err ←
            (if sourceType =? ModeSymlink then
               equalSymlink source target filePath
             else if sourceType =? ModeDir then
               recurse filePath buf
             else if sourceType =? 0 then
               equalFile source target fuel filePath buf
             else
               equalNode source target filePath);
          if negb (is_nil err) then ret err
          else equalEntries recurse fuel name buf (S i)
                 sourceEntries' targetEntries'
      end
  end.

(** [equalDir] *)
Fixpoint equalDir (fuel : nat) (name : string) (buf : list byte)
  : M error :=
  match fuel with
  | O => out_of_fuel
  | S fuel' =>
      '(sourceEntries, err) ←
        call (EvReadDir Source name) (fs_ReadDir source name);
      if negb (is_nil err) then ret err else
      '(targetEntries, err) ←
        call (EvReadDir Target name) (fs_ReadDir target name);
      if negb (is_nil err) then ret err else
      if negb (bool_decide (length sourceEntries = length targetEntries))
      then
        ret (equalErrorf name
               (Errorf "number of directory entries mismatch: want=%d got=%d"
                  [ArgInt (len sourceEntries); ArgInt (len targetEntries)]))
      else
        equalEntries (equalDir fuel') fuel' name buf 0
          sourceEntries targetEntries
  end.

(** [EqualFSBuffer] *)
Definition EqualFSBuffer (fuel : nat) (buf : list byte) : M error :=
  let buf := if len buf <? equalFSMinSize
             then make_bytes equalFSBufSize else buf in
  equalDir fuel "." buf.

(** [EqualFS]; the nil buffer is the empty list. *)
Definition EqualFS (fuel : nat) : M error := EqualFSBuffer fuel [].

End Walk.

(** ** [utf8.ValidString] and [fs.ValidPath] *)

Definition between (lo hi : N) (c : ascii) : bool :=
  (lo <=? N_of_ascii c)%N && (N_of_ascii c <=? hi)%N.

(** [utf8.ValidString]: one-byte characters, and the well-formed two-,
    three- and four-byte sequences (no overlong forms, no surrogates,
    nothing above U+10FFFF). *)
Fixpoint utf8_ValidString (s : string) : bool :=
  match s with
  | EmptyString => true
  | String c0 r0 =>
      let b0 := N_of_ascii c0 in
      if (b0 <? 128)%N then utf8_ValidString r0
      else if between 194 223 c0 then
        match r0 with
        | String c1 r1 => between 128 191 c1 && utf8_ValidString r1
        | _ => false
        end
      else if between 224 239 c0 then
        match r0 with
        | String c1 (String c2 r2) =>
            (if (b0 =? 224)%N then between 160 191 c1
             else if (b0 =? 237)%N then between 128 159 c1
             else between 128 191 c1)
            && between 128 191 c2 && utf8_ValidString r2
        | _ => false
        end
      else if between 240 244 c0 then
        match r0 with
        | String c1 (String c2 (String c3 r3)) =>
            (if (b0 =? 240)%N then between 144 191 c1
             else if (b0 =? 244)%N then between 128 143 c1
             else between 128 191 c1)
            && between 128 191 c2 && between 128 191 c3
            && utf8_ValidString r3
        | _ => false
        end
      else false
  end.

(** [fs.ValidPath]: valid UTF-8, and either the root [.] or elements none
    of which is empty, [.] or [..]. *)
Definition ValidPath (name : string) : bool :=
  if negb (utf8_ValidString name) then false
  else if bool_decide (name = ".") then true
  else forallb (fun elem =>
                  negb (bool_decide (elem = "") || bool_decide (elem = ".")
                        || bool_decide (elem = "..")))
         (split_path name).

(** ** Strings *)

(** [strings.HasPrefix(s, prefix)] together with [s[len(prefix):]]: the
    rest of [s] after [prefix], when [s] starts with it. *)
Fixpoint strip_prefix (prefix s : string) : option string :=
  match prefix with
  | EmptyString => Some s
  | String p prefix' =>
      match s with
      | String c s' =>
          if bool_decide (p = c) then strip_prefix prefix' s' else None
      | EmptyString => None
      end
  end.

(** [strings.Index(s, "/")] together with [s[:i]]: the part of [s] before
    its first slash, when it has one. *)
Fixpoint before_slash (s : string) : option string :=
  match s with
  | EmptyString => None
  | String c s' =>
      if bool_decide (c = slash) then Some EmptyString
      else match before_slash s' with
           | Some head => Some (String c head)
           | None => None
           end
  end.

(** [name[strings.LastIndex(name, "/")+1:]] *)
Definition after_last_slash (name : string) : string :=
  List.last (split_path name) EmptyString.

(** ** [testing/fstest]: the map file system that the package wraps *)

(** [fstest.MapFile]; its [Sys] field is left out, and with it nothing
    reports an access or a change time. *)
Record MapFile := mkMapFile {
  Data : list byte;
  Mode : FileMode.t;
  ModTime : Time
}.

#[global] Instance MapFile_eq_dec : EqDecision MapFile.
Proof. solve_decision. Defined.

(** [mapFileInfo]: a name and the file it describes.  It is both the
    [fs.FileInfo] and the [fs.DirEntry] of the map file system. *)
Record mapFileInfo := mkMapFileInfo {
  mfi_name : string;
  mfi_f : MapFile
}.

Definition mapFileInfo_FileInfo (i : mapFileInfo) : FileInfo :=
  {| fi_Name := path_Base (mfi_name i);
     fi_Size := len (Data (mfi_f i));
     fi_Mode := Mode (mfi_f i);
     fi_ModTime := ModTime (mfi_f i);
     fi_IsDir := negb (Z.land (Mode (mfi_f i)) ModeDir =? 0);
     fi_AccessTime := 0;
     fi_ChangeTime := 0 |}.

Definition mapFileInfo_DirEntry (i : mapFileInfo) : DirEntry :=
  {| de_Name := path_Base (mfi_name i);
     de_Type := Type_ (Mode (mfi_f i)) |}.

(** The files that [MapFS.Open] returns: the two kinds of file of
    [testing/fstest], and this package's two wrappers around them. *)
Inductive file :=
| openMapFile (path : string) (info : mapFileInfo) (offset : Z)
| mapDir (path : string) (info : mapFileInfo) (entry : list mapFileInfo)
    (offset : nat)
| denyReadPermission (f : file)
| virtualDirectory (f : file).

(** Insertion of [i] in a list that is sorted by name; [sort.Slice] with
    the order [list[i].name < list[j].name]. *)
Fixpoint insert_by_name (i : mapFileInfo) (l : list mapFileInfo)
  : list mapFileInfo :=
  match l with
  | [] => [i]
  | j :: l' =>
      if String.ltb (mfi_name j) (mfi_name i) then j :: insert_by_name i l'
      else i :: l
  end.

Definition sort_by_name (l : list mapFileInfo) : list mapFileInfo :=
  foldr insert_by_name [] l.

Fixpoint insert_entry (e : DirEntry) (l : list DirEntry) : list DirEntry :=
  match l with
  | [] => [e]
  | e' :: l' =>
      if String.ltb (de_Name e') (de_Name e) then e' :: insert_entry e l'
      else e :: l
  end.

(** [slices.SortFunc] by [Name], as [fs.ReadDir] does. *)
Definition sort_entries (l : list DirEntry) : list DirEntry :=
  foldr insert_entry [] l.

Section fstest_MapFS.

(** The permission bits that [testing/fstest] gives a directory it
    synthesizes: none in older releases of Go, 0555 in newer ones. *)
Variable synthPerm : FileMode.t.

Definition synthesized : MapFile :=
  {| Data := []; Mode := Z.lor ModeDir synthPerm; ModTime := 0 |}.

(** One turn of [for fname, f := range fsys] when the root is opened:
    a name without a slash is a child, the first element of any other
    name is a directory that is needed. *)
Definition scan_root (kv : string * MapFile)
    (acc : list mapFileInfo * gset string) : list mapFileInfo * gset string :=
  match before_slash (fst kv) with
  | None =>
      if bool_decide (fst kv = ".") then acc
      else (mkMapFileInfo (fst kv) (snd kv) :: fst acc, snd acc)
  | Some head => (fst acc, {[head]} ∪ snd acc)
  end.

(** The same turn when [name] is opened, with [prefix = name + "/"]. *)
Definition scan_dir (prefix : string) (kv : string * MapFile)
    (acc : list mapFileInfo * gset string) : list mapFileInfo * gset string :=
  match strip_prefix prefix (fst kv) with
  | Some felem =>
      match before_slash felem with
      | None => (mkMapFileInfo felem (snd kv) :: fst acc, snd acc)
      | Some head => (fst acc, {[head]} ∪ snd acc)
      end
  | None => acc
  end.

(** The end of [Open] for a directory: the needed directories that are
    not children already are synthesized, and the children sorted. *)
Definition dir_entries (children : list mapFileInfo) (need : gset string)
  : list mapFileInfo :=
  let need := need ∖ list_to_set (mfi_name <$> children) in
  sort_by_name
    (children
     ++ ((fun name => mkMapFileInfo name synthesized) <$> elements need)).

(** [fstest.MapFS.Open] of [testing/fstest].  A Go map is ranged over
    in no particular order; here in the order of [map_to_list]. *)
Definition fstest_Open (fsys : gmap string MapFile) (name : string)
  : error + file :=
  if negb (ValidPath name) then inl (PathError "open" name ErrNotExist)
  else
  let file := fsys !! name in
  match file with
  | Some f =>
      if Z.land (Mode f) ModeDir =? 0 then
        inr (openMapFile name (mkMapFileInfo (path_Base name) f) 0)
      else
        let '(children, need) :=
          if bool_decide (name = ".") then
            foldr scan_root ([], ∅) (map_to_list fsys)
          else
            foldr (scan_dir (name ++ "/")%string) ([], ∅)
              (map_to_list fsys) in
        let elem := if bool_decide (name = ".") then "."
                    else after_last_slash name in
        inr (mapDir name (mkMapFileInfo elem f)
               (dir_entries children need) 0)
  | None =>
      if bool_decide (name = ".") then
        let '(children, need) :=
          foldr scan_root ([], ∅) (map_to_list fsys) in
        inr (mapDir name (mkMapFileInfo "." synthesized)
               (dir_entries children need) 0)
      else
        let '(children, need) :=
          foldr (scan_dir (name ++ "/")%string) ([], ∅)
            (map_to_list fsys) in
        if bool_decide (children = []) && bool_decide (need = ∅) then
          inl (PathError "open" name ErrNotExist)
        else
          inr (mapDir name
                 (mkMapFileInfo (after_last_slash name) synthesized)
                 (dir_entries children need) 0)
  end.

End fstest_MapFS.

(** ** Methods of the files *)

(** [virtualDirInfo]: the information of the wrapped file, whose [Mode]
    alone is overridden. *)
Definition virtualDirInfo (stat : FileInfo) : FileInfo :=
  {| fi_Name := fi_Name stat;
     fi_Size := fi_Size stat;
     fi_Mode := Z.lor ModeDir perm_0700;
     fi_ModTime := fi_ModTime stat;
     fi_IsDir := fi_IsDir stat;
     fi_AccessTime := fi_AccessTime stat;
     fi_ChangeTime := fi_ChangeTime stat |}.

(** [Stat]: of [openMapFile] and [mapDir] as in [testing/fstest]; promoted
    from the embedded file by [denyReadPermission]; overridden by
    [virtualDirectory]. *)
Fixpoint mapfile_Stat (f : file) : FileInfo * error :=
  match f with
  | openMapFile _ info _ => (mapFileInfo_FileInfo info, nil_error)
  | mapDir _ info _ _ => (mapFileInfo_FileInfo info, nil_error)
  | denyReadPermission f' => mapfile_Stat f'
  | virtualDirectory f' =>
      let '(stat, err) := mapfile_Stat f' in (virtualDirInfo stat, err)
  end.

(** [Close] *)
Fixpoint mapfile_Close (f : file) : error :=
  match f with
  | openMapFile _ _ _ => nil_error
  | mapDir _ _ _ _ => nil_error
  | denyReadPermission f' => mapfile_Close f'
  | virtualDirectory f' => mapfile_Close f'
  end.

(** [Read] into a buffer of length [n]: the file afterwards, the bytes
    read and the error. *)
Fixpoint mapfile_Read (f : file) (n : nat) : file * (list byte * error) :=
  match f with
  | openMapFile path info offset =>
      if offset >=? len (Data (mfi_f info)) then (f, ([], EOF))
      else if offset <? 0 then (f, ([], PathError "read" path ErrInvalid))
      else
        let b := firstn n (skipn (Z.to_nat offset) (Data (mfi_f info))) in
        (openMapFile path info (offset + len b), (b, nil_error))
  | mapDir path _ _ _ => (f, ([], PathError "read" path ErrInvalid))
  | denyReadPermission _ => (f, ([], ErrPermission))
  | virtualDirectory f' =>
      let '(f'', r) := mapfile_Read f' n in (virtualDirectory f'', r)
  end.

(** [ReadDir(count)], for the files that have the method. *)
Fixpoint mapfile_ReadDir (f : file) (count : Z)
  : option (file * (list DirEntry * error)) :=
  match f with
  | openMapFile _ _ _ => None
  | mapDir path info entry offset =>
      let n := (length entry - offset)%nat in
      if bool_decide (n = 0%nat) && (count >? 0) then Some (f, ([], EOF))
      else
        let n := if (count >? 0) && (Z.of_nat n >? count)
                 then Z.to_nat count else n in
        let list := mapFileInfo_DirEntry <$> firstn n (skipn offset entry) in
        Some (mapDir path info entry (offset + n), (list, nil_error))
  | denyReadPermission _ => Some (f, ([], ErrPermission))
  | virtualDirectory f' =>
      match mapfile_ReadDir f' count with
      | Some (f'', r) => Some (virtualDirectory f'', r)
      | None => None
      end
  end.

Section MapFS.

Variable synthPerm : FileMode.t.

(** [fs.Stat(fsOnly{fsys}, name)], which is [fstest.MapFS.Stat]: open
    the file, ask it, close it. *)
Definition fstest_Stat (fsys : gmap string MapFile) (name : string)
  : option FileInfo * error :=
  match fstest_Open synthPerm fsys name with
  | inl err => (None, err)
  | inr file => let '(stat, err) := mapfile_Stat file in (Some stat, err)
  end.

(** [fs.ReadDir(fsOnly{fsys}, name)], which is [fstest.MapFS.ReadDir]:
    open the file, read all its entries, sort them by name. *)
Definition fstest_ReadDir (fsys : gmap string MapFile) (name : string)
  : list DirEntry * error :=
  match fstest_Open synthPerm fsys name with
  | inl err => ([], err)
  | inr file =>
      match mapfile_ReadDir file (-1) with
      | None =>
          ([], PathError "readdir" name (ErrorsNew "not implemented"))
      | Some (_, (list, err)) => (sort_entries list, err)
      end
  end.

(** [MapFS.Open] *)
Definition MapFS_Open (fsys : gmap string MapFile) (name : string)
  : option file * error :=
  match fstest_Open synthPerm fsys name with
  | inl err => (None, err)
  | inr f =>
      let '(s, err) := mapfile_Stat f in
      if negb (is_nil err) then (None, err)
      else if fi_IsDir s && bool_decide (fsys !! name = None) then
        (Some (virtualDirectory f), nil_error)
      else if Z.land (Perm (fi_Mode s)) perm_0400 =? 0 then
        (Some (denyReadPermission f), nil_error)
      else (Some f, nil_error)
  end.

(** [MapFS.ReadDir] *)
Definition MapFS_ReadDir (fsys : gmap string MapFile) (name : string)
  : list DirEntry * error :=
  fstest_ReadDir fsys name.

(** [MapFS.Stat] *)
Definition MapFS_Stat (fsys : gmap string MapFile) (name : string)
  : option FileInfo * error :=
  fstest_Stat fsys name.

(** [MapFS.ReadLink] *)
Definition MapFS_ReadLink (fsys : gmap string MapFile) (name : string)
  : string * error :=
  if negb (ValidPath name) then
    ("", PathError "readlink" name ErrNotExist)
  else
    match fsys !! name with
    | None => ("", PathError "readlink" name ErrNotExist)
    | Some file =>
        if Z.land (Mode file) ModeSymlink =? 0 then
          ("", PathError "readlink" name ErrInvalid)
        else (string_of_list_byte (Data file), nil_error)
    end.

(** [subFS.fullName] *)
Definition subFS_fullName (f_name : string) (name : string) : string :=
  if bool_decide (name = ".") then f_name
  else (f_name ++ "/" ++ name)%string.

(** [subFS.Open] *)
Definition subFS_Open (f_fsys : gmap string MapFile) (f_name : string)
    (name : string) : option file * error :=
  MapFS_Open f_fsys (subFS_fullName f_name name).

(** [subFS.ReadLink] *)
Definition subFS_ReadLink (f_fsys : gmap string MapFile) (f_name : string)
    (name : string) : string * error :=
  MapFS_ReadLink f_fsys (subFS_fullName f_name name).

(** [MapFS.Sub]: the view [&subFS{fsys, name}], when the path exists. *)
Definition MapFS_Sub (fsys : gmap string MapFile) (name : string)
  : option (gmap string MapFile * string) * error :=
  let '(_, err) := MapFS_Stat fsys name in
  if negb (is_nil err) then (None, err)
  else (Some (fsys, name), nil_error).

(** A [MapFS] as the comparator sees it: [fs.Stat] and [fs.ReadDir] find
    the methods [Stat] and [ReadDir], and [fslink.ReadLink] the method
    [ReadLink]. *)
Definition MapFS_FS (fsys : gmap string MapFile) : FS :=
  {| File := file;
     fs_Open := MapFS_Open fsys;
     fs_Stat := MapFS_Stat fsys;
     fs_ReadDir := MapFS_ReadDir fsys;
     fslink_ReadLink := MapFS_ReadLink fsys;
     file_Read := mapfile_Read |}.

End MapFS.

(** ** The file systems of the package's test *)

Definition test_a : gmap string MapFile :=
  {[ "dir" := mkMapFile [] (Z.lor perm_0755 ModeDir) 0;
     "dir/file" := mkMapFile (list_byte_of_string "Hello World!") perm_0644 0;
     "dir/symlink" :=
       mkMapFile (list_byte_of_string "../file")
         (Z.lor perm_0666 ModeSymlink) 0 ]}.

Definition test_b : gmap string MapFile :=
  {[ "dir" := mkMapFile [] (Z.lor perm_0755 ModeDir) 0;
     "dir/file" := mkMapFile (list_byte_of_string "Hello World!") perm_0644 0;
     "dir/symlink" := mkMapFile [] (Z.lor perm_0666 ModeSymlink) 0 ]}.

(** ** Definitions used to state the properties *)

(** When two file informations pass [equalStat]. *)
Definition same_metadata (si ti : FileInfo) : Prop :=
  Type_ (fi_Mode si) = Type_ (fi_Mode ti)
  /\ (Perm (fi_Mode si) = 0 \/ Perm (fi_Mode ti) = 0
      \/ Perm (fi_Mode si) = Perm (fi_Mode ti))
  /\ (Time_IsZero (fi_ModTime si) = true \/ Time_IsZero (fi_ModTime ti) = true
      \/ fi_ModTime si = fi_ModTime ti)
  /\ (Time_IsZero (fi_AccessTime si) = true
      \/ Time_IsZero (fi_AccessTime ti) = true
      \/ fi_AccessTime si = fi_AccessTime ti)
  /\ (Time_IsZero (fi_ChangeTime si) = true
      \/ Time_IsZero (fi_ChangeTime ti) = true
      \/ fi_ChangeTime si = fi_ChangeTime ti)
  /\ (fi_IsDir si = true \/ fi_Size si = fi_Size ti).

(** A file of [testing/fstest] itself, not one of the two wrappers. *)
Definition is_wrapped (f : file) : bool :=
  match f with
  | openMapFile _ _ _ | mapDir _ _ _ _ => false
  | denyReadPermission _ | virtualDirectory _ => true
  end.

(** A declared file without any permission bit. *)
Definition locked : gmap string MapFile :=
  {[ "secret" := mkMapFile (list_byte_of_string "hidden") 0 0 ]}.

(** A map in which [dir] is a directory only through [dir/file]. *)
Definition implied : gmap string MapFile :=
  {[ "dir/file" :=
       mkMapFile (list_byte_of_string "Hello World!") perm_0644 0 ]}.

(** One file of 513 bytes. *)
Definition big : gmap string MapFile :=
  {[ "big" := mkMapFile (repeat x61 513) perm_0644 0 ]}.

(** A file system that lists and stats one regular file, [secret], and
    refuses to open it: as a directory of the operating system does for a
    file that its reader may not read. *)
Definition unreadable : FS :=
  {| File := unit;
     fs_Open := fun name => (None, PathError "open" name ErrPermission);
     fs_Stat := fun name =>
       if bool_decide (name = "secret")
       then (Some (mkFileInfo "secret" 6 0 0 false 0 0), nil_error)
       else (None, PathError "stat" name ErrNotExist);
     fs_ReadDir := fun name =>
       if bool_decide (name = ".")
       then ([mkDirEntry "secret" 0], nil_error)
       else ([], PathError "readdir" name ErrNotExist);
     fslink_ReadLink := fun name =>
       ("", PathError "readlink" name ErrInvalid);
     file_Read := fun f _ => (f, ([], EOF)) |}.

(** A file system whose every path is missing. *)
Definition missing : FS :=
  {| File := unit;
     fs_Open := fun name => (None, PathError "open" name ErrNotExist);
     fs_Stat := fun name => (None, PathError "stat" name ErrNotExist);
     fs_ReadDir := fun name => ([], PathError "open" name ErrNotExist);
     fslink_ReadLink := fun name =>
       ("", PathError "readlink" name ErrNotExist);
     file_Read := fun f _ => (f, ([], EOF)) |}.

(** The file after [k] calls of [Read] with a buffer of length [n]. *)
Fixpoint file_after (fsys : FS) (n k : nat) (f : File fsys) : File fsys :=
  match k with
  | O => f
  | S k' => file_after fsys n k' (fst (file_Read fsys f n))
  end.

(** What call number [k] of [Read] returns (the first call is number 0). *)
Definition read_at (fsys : FS) (n k : nat) (f : File fsys)
  : list byte * error :=
  snd (file_Read fsys (file_after fsys n k f) n).

(** What one turn of the loop of [equalData] does with the results of its
    two calls: return an error, return nil, or go on ([None]). *)
Definition round_outcome (r1 r2 : list byte * error) : option error :=
  if negb (bool_decide (length (fst r1) = length (fst r2))) then
    Some (Errorf "file read size mismatch: want=%d got=%d"
            [ArgInt (Z.of_nat (length (fst r1)));
             ArgInt (Z.of_nat (length (fst r2)))])
  else if negb (bytes_Equal (fst r1) (fst r2)) then
    Some (Errorf "file content mismatch: want=%q got=%q"
            [ArgBytes (fst r1); ArgBytes (fst r2)])
  else if negb (bool_decide (snd r1 = snd r2)) then
    Some (ErrorfV "file read error mismatch: want=%v got=%v"
            (snd r1) (snd r2))
  else if negb (is_nil (snd r1)) then Some nil_error
  else None.





(** The errors that are one value wherever they are met: the error
    variables of [io] and [io/fs], each made once when its package is
    loaded, and the numbers of [syscall.Errno].  On these, Go's [==] is the
    equality of the values; an error made by the call that returns it
    ([&fs.PathError{...}], [errors.New], [fmt.Errorf]) is a new pointer
    each time, equal to itself only. *)
Definition is_sentinel (e : error) : bool :=
  match e with
  | Errno _ => true
  | _ =>
      bool_decide
        (e ∈ [EOF; ErrInvalid; ErrPermission; ErrExist; ErrNotExist;
              ErrClosed; ErrUnsupported])
  end.

(** Within [bound] calls, the file ends: read with a buffer of [n] bytes,
    its calls of [Read] return no error until one of them, the call
    [k < bound], returns [io.EOF] or another error that is one value
    wherever it is met; and none of these calls returns more bytes than
    the buffer has. *)
Definition ends (F : FS) (n bound : nat) (f : File F) : Prop :=
  exists k, (k < bound)%nat
    /\ (forall j, (j < k)%nat -> snd (read_at F n j f) = nil_error)
    /\ is_sentinel (snd (read_at F n k f)) = true
    /\ (forall j, (j <= k)%nat ->
          (length (fst (read_at F n j f)) <= n)%nat).

(** What the comparison needs of one entry of the directory [name]. *)
Definition entry_walkable (F : FS) (n bound : nat)
    (walkable : string -> Prop) (name : string) (entry : DirEntry) : Prop :=
  let filePath := path_Join name (de_Name entry) in
  if de_Type entry =? ModeSymlink then
    exists link, fslink_ReadLink F filePath = (link, nil_error)
  else if de_Type entry =? ModeDir then walkable filePath
  else if de_Type entry =? 0 then
    (exists info, fs_Stat F filePath = (Some info, nil_error))
    /\ (exists f, fs_Open F filePath = (Some f, nil_error)
                  /\ ends F n bound f)
  else exists info, fs_Stat F filePath = (Some info, nil_error).

(** Every call that the walk from the directory [name] makes on [F]
    succeeds, with buffers of length [n]: every directory met can be
    listed, every symbolic link read, every regular file stat'ed, opened
    and read to its end ([ends]), every other node stat'ed; and the walk
    is no deeper, and no file longer in calls of [Read], than [bound]. *)
Fixpoint walkable (F : FS) (n bound : nat) (name : string) : Prop :=
  match bound with
  | O => False
  | S bound' =>
      exists entries,
        fs_ReadDir F name = (entries, nil_error)
        /\ Forall (entry_walkable F n bound' (walkable F n bound') name)
             entries
  end.


(** The switch of [equalDir] on the type of an entry (lines 191-200), for
    the entry at [filePath]; [recurse] is [equalDir] itself. *)
Definition equalEntry (source target : FS)
    (recurse : string -> list byte -> M error) (fuel : nat)
    (filePath : string) (buf : list byte) (sourceType : FileMode.t)
  : M error :=
  if sourceType =? ModeSymlink then equalSymlink source target filePath
  else if sourceType =? ModeDir then recurse filePath buf
  else if sourceType =? 0 then equalFile source target fuel filePath buf
  else equalNode source target filePath.

(** A directory record without any permission bit, and a file below it. *)
Definition locked_dir : gmap string MapFile :=
  {[ "vault" := mkMapFile [] ModeDir 0;
     "vault/key" := mkMapFile (list_byte_of_string "k") perm_0644 0 ]}.

(** * Properties *)

(** ** The monad *)

Lemma bind_ret_l {A B} (a : A) (k : A -> M B) : ret a ≫= k = k a.
Proof. unfold mbind, M_bind, bind, ret. destruct (k a); reflexivity. Qed.

Lemma bind_ret_r {A} (m : M A) : m ≫= ret = m.
Proof.
  destruct m as [tr [a|reason|]]; unfold mbind, M_bind, bind, ret;
    rewrite ?app_nil_r; reflexivity.
Qed.

Lemma bind_assoc {A B C} (m : M A) (k : A -> M B) (k' : B -> M C) :
  (m ≫= k) ≫= k' = m ≫= (fun a => k a ≫= k').
Proof.
  destruct m as [tr [a|reason|]]; unfold mbind, M_bind, bind;
    [|reflexivity..].
  destruct (k a) as [tr1 [b|reason|]]; [|reflexivity..].
  destruct (k' b) as [tr2 r]. rewrite app_assoc. reflexivity.
Qed.

Lemma result_bind_Return {A B} (m : M A) (k : A -> M B) (a : A) :
  result m = Return a -> result (m ≫= k) = result (k a).
Proof.
  destruct m as [tr r]; simpl; intros ->.
  unfold mbind, M_bind, bind. destruct (k a); reflexivity.
Qed.

Lemma result_bind_Panic {A B} (m : M A) (k : A -> M B) reason :
  result m = Panic reason -> result (m ≫= k) = Panic reason.
Proof. destruct m as [tr r]; simpl; intros ->. reflexivity. Qed.

Lemma result_bind_OutOfFuel {A B} (m : M A) (k : A -> M B) :
  result m = OutOfFuel -> result (m ≫= k) = OutOfFuel.
Proof. destruct m as [tr r]; simpl; intros ->. reflexivity. Qed.

Lemma result_call_bind {A B} ev (a : A) (k : A -> M B) :
  result (call ev a ≫= k) = result (k a).
Proof. apply result_bind_Return. reflexivity. Qed.

Lemma result_defer {A} evs (m : M A) : result (defer evs m) = result m.
Proof. reflexivity. Qed.

Lemma result_ret {A} (a : A) : result (ret a) = Return a.
Proof. reflexivity. Qed.

(** ** Errors *)

Lemma is_nil_true (e : error) : is_nil e = true <-> e = nil_error.
Proof. destruct e; simpl; split; congruence. Qed.

Lemma is_nil_false (e : error) : is_nil e = false <-> e <> nil_error.
Proof. destruct e; simpl; split; congruence. Qed.

(** The root of a chain is a link that wraps nothing. *)
Lemma unwrap_root (e : error) : errors_Unwrap (unwrap e) = nil_error.
Proof.
  induction e; simpl; try reflexivity.
  - destruct (is_nil e) eqn:E; [apply is_nil_true in E; subst|]; auto.
  - destruct (is_nil e) eqn:E; [apply is_nil_true in E; subst|]; auto.
Qed.

Lemma unwrap_nil_iff (e : error) : unwrap e = nil_error <-> e = nil_error.
Proof.
  split; [|intros ->; reflexivity].
  induction e; simpl; try congruence.
  - destruct (is_nil e) eqn:E; [congruence|].
    intros H. apply IHe in H. subst e. discriminate.
  - destruct (is_nil e) eqn:E; [congruence|].
    intros H. apply IHe in H. subst e. discriminate.
Qed.

(** Walking the chain of [err] finds a link that wraps nothing exactly when
    that link is the root of the chain. *)
Lemma errors_is_root (err root : error) :
  err <> nil_error -> errors_Unwrap root = nil_error ->
  errors_is err root = true
  <-> unwrap err = root \/ error_Is (unwrap err) root = true.
Proof.
  intros Hnil Hroot. induction err; simpl.
  - congruence.
  - rewrite orb_false_r. case_bool_decide; split; intros; auto;
      destruct_or?; congruence.
  - rewrite orb_false_r. case_bool_decide as Heq.
    + subst root. simpl in Hroot. subst err. simpl. tauto.
    + destruct (is_nil err) eqn:E.
      * simpl. split; [discriminate|]. intros [?|?]; congruence.
      * apply IHerr. now apply is_nil_false.
  - rewrite orb_false_r. case_bool_decide; split; intros; auto;
      destruct_or?; congruence.
  - rewrite orb_false_r. case_bool_decide; split; intros; auto;
      destruct_or?; congruence.
  - rewrite orb_false_r. case_bool_decide as Heq.
    + subst root. simpl in Hroot. subst err. simpl. tauto.
    + destruct (is_nil err) eqn:E.
      * simpl. split; [discriminate|]. intros [?|?]; congruence.
      * apply IHerr. now apply is_nil_false.
  - destruct (bool_decide (Errno code = root) || Errno_Is code root) eqn:E.
    + split; [|reflexivity]. intros _.
      apply orb_true_iff in E as [E|E]; [left|right; exact E].
      now apply bool_decide_eq_true in E.
    + apply orb_false_iff in E as [E1 E2].
      apply bool_decide_eq_false in E1.
      split; [discriminate|]. intros [?|?]; congruence.
Qed.

(** The test that [equalFile] makes on the two errors of [Open]: it passes
    exactly when both are nil, or both are errors and the root cause of
    the first is the root cause of the second or accepts it through its
    [Is] method. *)
Lemma errors_Is_unwrap (err1 err2 : error) :
  errors_Is err1 (unwrap err2) = true <->
  (err1 = nil_error /\ err2 = nil_error) \/
  (err1 <> nil_error /\ err2 <> nil_error
   /\ (unwrap err1 = unwrap err2
       \/ error_Is (unwrap err1) (unwrap err2) = true)).
Proof.
  unfold errors_Is.
  destruct (is_nil err1) eqn:E1; simpl.
  - apply is_nil_true in E1. subst err1.
    case_bool_decide as H.
    + symmetry in H. apply (proj1 (unwrap_nil_iff _)) in H. subst err2.
      split; [intros _; left; split; reflexivity | reflexivity].
    + split; [discriminate|]. intros [[_ ->]|[? _]]; [|congruence].
      now destruct H.
  - apply is_nil_false in E1.
    destruct (is_nil (unwrap err2)) eqn:E2.
    + apply is_nil_true in E2. pose proof E2 as E2'.
      apply (proj1 (unwrap_nil_iff _)) in E2'. subst err2.
      case_bool_decide as H; [simpl in H; congruence|].
      split; [discriminate|]. intros [[? _]|(_ & ? & _)]; congruence.
    + apply is_nil_false in E2.
      rewrite errors_is_root by (auto using unwrap_root).
      split.
      * intros H. right. repeat split; auto.
        intros ->. now apply E2.
      * intros [[? _]|(_ & _ & ?)]; [congruence|assumption].
Qed.

(** ** Metadata *)

Lemma equalTime_nil_iff (typ : string) (s t : Time) :
  equalTime typ s t = nil_error <->
  Time_IsZero s = true \/ Time_IsZero t = true \/ s = t.
Proof.
  unfold equalTime, Time_IsZero, Time_Equal.
  destruct (Z.eqb_spec s 0), (Z.eqb_spec t 0), (Z.eqb_spec s t); simpl;
    split; intros H; auto; try discriminate.
  destruct H as [H|[H|H]]; congruence.
Qed.

Lemma if_error_nil (c : bool) (e rest : error) :
  e <> nil_error ->
  (if c then e else rest) = nil_error <-> c = false /\ rest = nil_error.
Proof. destruct c; split; intros; try tauto; destruct_and?; congruence. Qed.

Lemma if_not_nil_nil (e rest : error) :
  (if negb (is_nil e) then e else rest) = nil_error
  <-> e = nil_error /\ rest = nil_error.
Proof. destruct e; simpl; split; intros; destruct_and?; try tauto; congruence. Qed.

Lemma perm_test_false (p q : Z) :
  negb (p =? 0) && negb (q =? 0) && negb (p =? q) = false
  <-> p = 0 \/ q = 0 \/ p = q.
Proof.
  destruct (Z.eqb_spec p 0), (Z.eqb_spec q 0), (Z.eqb_spec p q); simpl;
    split; intros H; auto; try discriminate.
  destruct H as [H|[H|H]]; congruence.
Qed.

Lemma size_test_nil (d : bool) (n m : Z) :
  (if negb d
   then if negb (n =? m)
        then Errorf "files sizes mismatch: want=%d got=%d" [ArgInt n; ArgInt m]
        else nil_error
   else nil_error) = nil_error
  <-> d = true \/ n = m.
Proof.
  destruct d, (Z.eqb_spec n m); simpl; split; intros H; auto;
    try discriminate.
  destruct H; congruence.
Qed.

Lemma equalStatInfo_nil_iff (si ti : FileInfo) :
  equalStatInfo si ti = nil_error <-> same_metadata si ti.
Proof.
  unfold equalStatInfo, same_metadata. cbv zeta.
  rewrite if_error_nil by discriminate.
  rewrite if_error_nil by discriminate.
  rewrite !if_not_nil_nil, !equalTime_nil_iff, size_test_nil.
  rewrite perm_test_false, negb_false_iff, Z.eqb_eq.
  reflexivity.
Qed.


(** C5. Once both sides have been stat'ed, [equalStat] returns, and it
    returns nil exactly when: the file-type bits are the same; the
    permission bits are the same or are zero on either side; each of the
    modification, access and change times is the same or is zero on either
    side; and the sizes are the same or the source is a directory. *)
Theorem equalStat_compares_metadata (source target : FS) (name : string)
    (si ti : FileInfo) :
  fs_Stat source name = (Some si, nil_error) ->
  fs_Stat target name = (Some ti, nil_error) ->
  exists err,
    result (equalStat source target name) = Return err
    /\ (err = nil_error <->
        Type_ (fi_Mode si) = Type_ (fi_Mode ti)
        /\ (Perm (fi_Mode si) = 0 \/ Perm (fi_Mode ti) = 0
            \/ Perm (fi_Mode si) = Perm (fi_Mode ti))
        /\ (Time_IsZero (fi_ModTime si) = true
            \/ Time_IsZero (fi_ModTime ti) = true
            \/ fi_ModTime si = fi_ModTime ti)
        /\ (Time_IsZero (fi_AccessTime si) = true
            \/ Time_IsZero (fi_AccessTime ti) = true
            \/ fi_AccessTime si = fi_AccessTime ti)
        /\ (Time_IsZero (fi_ChangeTime si) = true
            \/ Time_IsZero (fi_ChangeTime ti) = true
            \/ fi_ChangeTime si = fi_ChangeTime ti)
        /\ (fi_IsDir si = true \/ fi_Size si = fi_Size ti)).
Proof.
  intros Hs Ht. exists (equalStatInfo si ti). split.
  - unfold equalStat. rewrite Hs, Ht. reflexivity.
  - apply equalStatInfo_nil_iff.
Qed.

Lemma equalStat_compares_metadata_witness :
  exists err,
    result (equalStat (MapFS_FS perm_0555 test_a) (MapFS_FS perm_0555 test_b)
              "dir/file") = Return err
    /\ (err = nil_error <->
        Type_ perm_0644 = Type_ perm_0644
        /\ (Perm perm_0644 = 0 \/ Perm perm_0644 = 0
            \/ Perm perm_0644 = Perm perm_0644)
        /\ (Time_IsZero 0 = true \/ Time_IsZero 0 = true \/ 0 = 0)
        /\ (Time_IsZero 0 = true \/ Time_IsZero 0 = true \/ 0 = 0)
        /\ (Time_IsZero 0 = true \/ Time_IsZero 0 = true \/ 0 = 0)
        /\ (false = true \/ 12 = 12)).
Proof.
  apply (equalStat_compares_metadata
           (MapFS_FS perm_0555 test_a) (MapFS_FS perm_0555 test_b) "dir/file"
           (mkFileInfo "file" 12 perm_0644 0 false 0 0)
           (mkFileInfo "file" 12 perm_0644 0 false 0 0));
    vm_compute; reflexivity.
Defined.

(** ** Directories *)

(** C7. When the two sides list a directory with different numbers of
    entries, [equalDir] makes the two listing calls and no other, and
    returns the count mismatch for that directory's path. *)
Theorem equalDir_count_mismatch (source target : FS) (fuel : nat)
    (name : string) (buf : list byte) (se te : list DirEntry) :
  fs_ReadDir source name = (se, nil_error) ->
  fs_ReadDir target name = (te, nil_error) ->
  length se <> length te ->
  equalDir source target (S fuel) name buf =
    ([EvReadDir Source name; EvReadDir Target name],
     Return (PathError "equal" name
               (Errorf "number of directory entries mismatch: want=%d got=%d"
                  [ArgInt (len se); ArgInt (len te)]))).
Proof.
  intros Hs Ht Hlen. simpl. rewrite Hs, Ht. simpl.
  rewrite bool_decide_false by assumption. reflexivity.
Qed.

Lemma equalDir_count_mismatch_witness :
  equalDir (MapFS_FS perm_0555 test_a) (MapFS_FS perm_0555 ∅) 1 "." [] =
    ([EvReadDir Source "."; EvReadDir Target "."],
     Return (PathError "equal" "."
               (Errorf "number of directory entries mismatch: want=%d got=%d"
                  [ArgInt 1; ArgInt 0]))).
Proof.
  apply (equalDir_count_mismatch
           (MapFS_FS perm_0555 test_a) (MapFS_FS perm_0555 ∅) 0 "." []
           [mkDirEntry "dir" ModeDir] []).
  - vm_compute; reflexivity.
  - vm_compute; reflexivity.
  - simpl; lia.
Defined.

(** ** Symbolic links *)

(** C8. [MapFS.ReadLink] returns the stored target of a valid path whose
    declared mode has the symlink bit; fails with "invalid" for a valid
    path that is in the mapping without the bit; and fails with "not
    found" for a path that is absent from the mapping or not valid. *)
Theorem MapFS_ReadLink_cases (fsys : gmap string MapFile) (name : string) :
  (forall f, ValidPath name = true -> fsys !! name = Some f ->
             Z.land (Mode f) ModeSymlink <> 0 ->
             MapFS_ReadLink fsys name
             = (string_of_list_byte (Data f), nil_error))
  /\ (forall f, ValidPath name = true -> fsys !! name = Some f ->
                Z.land (Mode f) ModeSymlink = 0 ->
                MapFS_ReadLink fsys name
                = ("", PathError "readlink" name ErrInvalid))
  /\ (fsys !! name = None \/ ValidPath name = false ->
      MapFS_ReadLink fsys name = ("", PathError "readlink" name ErrNotExist)).
Proof.
  unfold MapFS_ReadLink. split; [|split].
  - intros f -> -> Hbit. simpl.
    destruct (Z.eqb_spec (Z.land (Mode f) ModeSymlink) 0); congruence.
  - intros f -> -> Hbit. simpl. rewrite Hbit. reflexivity.
  - intros [->| ->]; simpl; [|reflexivity].
    destruct (ValidPath name); reflexivity.
Qed.

Lemma MapFS_ReadLink_cases_witness :
  MapFS_ReadLink test_a "dir/symlink" = ("../file", nil_error)
  /\ MapFS_ReadLink test_a "dir/file"
     = ("", PathError "readlink" "dir/file" ErrInvalid)
  /\ MapFS_ReadLink test_a "nowhere"
     = ("", PathError "readlink" "nowhere" ErrNotExist)
  /\ MapFS_ReadLink test_a "dir/../dir/symlink"
     = ("", PathError "readlink" "dir/../dir/symlink" ErrNotExist).
Proof.
  split; [|split; [|split]].
  - apply (proj1 (MapFS_ReadLink_cases test_a "dir/symlink")
             (mkMapFile (list_byte_of_string "../file")
                (Z.lor perm_0666 ModeSymlink) 0));
      vm_compute; congruence.
  - apply (proj1 (proj2 (MapFS_ReadLink_cases test_a "dir/file"))
             (mkMapFile (list_byte_of_string "Hello World!") perm_0644 0));
      vm_compute; congruence.
  - apply (proj2 (proj2 (MapFS_ReadLink_cases test_a "nowhere"))).
    left. vm_compute. reflexivity.
  - apply (proj2 (proj2 (MapFS_ReadLink_cases test_a "dir/../dir/symlink"))).
    right. vm_compute. reflexivity.
Defined.

(** ** Opening a path of the map file system *)

Lemma string_app_assoc (a b c : string) :
  ((a ++ b) ++ c = a ++ b ++ c)%string.
Proof.
  induction a as [|x a IH]; [reflexivity|].
  change (String x ((a ++ b) ++ c) = String x (a ++ b ++ c))%string.
  now rewrite IH.
Qed.

Lemma strip_prefix_app (prefix rest : string) :
  strip_prefix prefix (prefix ++ rest)%string = Some rest.
Proof.
  induction prefix as [|c prefix IH]; simpl; [reflexivity|].
  rewrite bool_decide_true by reflexivity. exact IH.
Qed.

Lemma lor_ModeDir_IsDir (p : Z) :
  negb (Z.land (Z.lor ModeDir p) ModeDir =? 0) = true.
Proof.
  destruct (Z.eqb_spec (Z.land (Z.lor ModeDir p) ModeDir) 0) as [E|E];
    [|reflexivity].
  assert (H : Z.testbit (Z.land (Z.lor ModeDir p) ModeDir) 31 = true).
  { rewrite Z.land_spec, Z.lor_spec. reflexivity. }
  rewrite E, Z.bits_0 in H. discriminate.
Qed.

(** [fstest.MapFS.Open] on a valid path that has a record: it succeeds, and
    the file it returns describes that record. *)
Lemma fstest_Open_declared (synthPerm : Z) (fsys : gmap string MapFile)
    (name : string) (f : MapFile) :
  ValidPath name = true -> fsys !! name = Some f ->
  exists u elem,
    fstest_Open synthPerm fsys name = inr u
    /\ is_wrapped u = false
    /\ mapfile_Stat u
       = (mapFileInfo_FileInfo (mkMapFileInfo elem f), nil_error)
    /\ mapfile_Close u = nil_error.
Proof.
  intros Hvalid Hf. unfold fstest_Open. rewrite Hvalid, Hf. simpl.
  destruct (Z.land (Mode f) ModeDir =? 0).
  - eexists _, _. repeat split; reflexivity.
  - destruct (if bool_decide (name = ".")
              then foldr scan_root ([], ∅) (map_to_list fsys)
              else foldr (scan_dir (name ++ "/")) ([], ∅) (map_to_list fsys))
      as [children need].
    eexists _, _. repeat split; reflexivity.
Qed.

(** [MapFS.Open] on a valid path whose record lacks the owner read bit
    wraps the file of [testing/fstest] in [denyReadPermission]. *)
Lemma MapFS_Open_read_denied (synthPerm : Z) (fsys : gmap string MapFile)
    (name : string) (f : MapFile) :
  ValidPath name = true -> fsys !! name = Some f ->
  Z.land (Perm (Mode f)) perm_0400 = 0 ->
  exists u elem,
    fstest_Open synthPerm fsys name = inr u
    /\ MapFS_Open synthPerm fsys name
       = (Some (denyReadPermission u), nil_error)
    /\ mapfile_Stat u
       = (mapFileInfo_FileInfo (mkMapFileInfo elem f), nil_error)
    /\ mapfile_Close u = nil_error.
Proof.
  intros Hvalid Hf Hperm.
  destruct (fstest_Open_declared synthPerm fsys name f Hvalid Hf)
    as (u & elem & Hopen & _ & Hstat & Hclose).
  exists u, elem. repeat split; try assumption.
  unfold MapFS_Open. rewrite Hopen, Hstat. simpl.
  rewrite Hf, bool_decide_false by discriminate.
  rewrite andb_false_r, Hperm. reflexivity.
Qed.

(** A file wrapped in [denyReadPermission] is the same file after any
    number of calls of [Read]. *)
Lemma file_after_denied (synthPerm : Z) (fsys : gmap string MapFile)
    (n k : nat) (u : file) :
  file_after (MapFS_FS synthPerm fsys) n k (denyReadPermission u)
  = denyReadPermission u.
Proof. induction k as [|k IH]; [reflexivity|exact IH]. Qed.

(** C6. Opening a valid path whose record lacks the owner read bit
    succeeds, and on the file returned every [Read] and every [ReadDir]
    fails with "permission denied" and leaves the file as it was, so that
    every later call fails alike: call number [k] of [Read] fails for
    every [k]. *)
Theorem MapFS_Open_denies_reads (synthPerm : Z) (fsys : gmap string MapFile)
    (name : string) (f : MapFile) :
  ValidPath name = true -> fsys !! name = Some f ->
  Z.land (Perm (Mode f)) perm_0400 = 0 ->
  exists h,
    MapFS_Open synthPerm fsys name = (Some h, nil_error)
    /\ (forall n, mapfile_Read h n = (h, ([], ErrPermission)))
    /\ (forall count, mapfile_ReadDir h count = Some (h, ([], ErrPermission)))
    /\ (forall n k,
          read_at (MapFS_FS synthPerm fsys) n k h = ([], ErrPermission)).
Proof.
  intros Hvalid Hf Hperm.
  destruct (MapFS_Open_read_denied synthPerm fsys name f Hvalid Hf Hperm)
    as (u & elem & _ & Hopen & _).
  exists (denyReadPermission u). split; [exact Hopen|].
  split; [intros; reflexivity|]. split; [intros; reflexivity|].
  intros n k. unfold read_at. rewrite file_after_denied. reflexivity.
Qed.

Lemma MapFS_Open_denies_reads_witness :
  exists h,
    MapFS_Open perm_0555 locked "secret" = (Some h, nil_error)
    /\ (forall n, mapfile_Read h n = (h, ([], ErrPermission)))
    /\ (forall count, mapfile_ReadDir h count = Some (h, ([], ErrPermission)))
    /\ (forall n k,
          read_at (MapFS_FS perm_0555 locked) n k h = ([], ErrPermission)).
Proof.
  apply (MapFS_Open_denies_reads perm_0555 locked "secret"
           (mkMapFile (list_byte_of_string "hidden") 0 0));
    vm_compute; reflexivity.
Defined.

(** C10. On the file that [MapFS.Open] returns for a record without the
    owner read bit, [Stat] and [Close] are those of the file of
    [testing/fstest] underneath: [Stat] reports the record's own mode,
    size and modification time, and [Close] returns nil. *)
Theorem denyReadPermission_keeps_Stat_and_Close (synthPerm : Z)
    (fsys : gmap string MapFile) (name : string) (f : MapFile) :
  ValidPath name = true -> fsys !! name = Some f ->
  Z.land (Perm (Mode f)) perm_0400 = 0 ->
  exists u info,
    fstest_Open synthPerm fsys name = inr u
    /\ MapFS_Open synthPerm fsys name
       = (Some (denyReadPermission u), nil_error)
    /\ mapfile_Stat (denyReadPermission u) = mapfile_Stat u
    /\ mapfile_Close (denyReadPermission u) = mapfile_Close u
    /\ mapfile_Stat (denyReadPermission u) = (info, nil_error)
    /\ fi_Mode info = Mode f
    /\ fi_Size info = len (Data f)
    /\ fi_ModTime info = ModTime f
    /\ fi_IsDir info = IsDir (Mode f)
    /\ mapfile_Close (denyReadPermission u) = nil_error.
Proof.
  intros Hvalid Hf Hperm.
  destruct (MapFS_Open_read_denied synthPerm fsys name f Hvalid Hf Hperm)
    as (u & elem & Hup & Hopen & Hstat & Hclose).
  exists u, (mapFileInfo_FileInfo (mkMapFileInfo elem f)).
  repeat split; assumption.
Qed.

Lemma denyReadPermission_keeps_Stat_and_Close_witness :
  exists u info,
    fstest_Open perm_0555 locked "secret" = inr u
    /\ MapFS_Open perm_0555 locked "secret"
       = (Some (denyReadPermission u), nil_error)
    /\ mapfile_Stat (denyReadPermission u) = mapfile_Stat u
    /\ mapfile_Close (denyReadPermission u) = mapfile_Close u
    /\ mapfile_Stat (denyReadPermission u) = (info, nil_error)
    /\ fi_Mode info = 0
    /\ fi_Size info = 6
    /\ fi_ModTime info = 0
    /\ fi_IsDir info = false
    /\ mapfile_Close (denyReadPermission u) = nil_error.
Proof.
  apply (denyReadPermission_keeps_Stat_and_Close perm_0555 locked "secret"
           (mkMapFile (list_byte_of_string "hidden") 0 0));
    vm_compute; reflexivity.
Defined.

(** ** Implied directories *)

Lemma singleton_union_nonempty (x : string) (X : gset string) :
  {[x]} ∪ X <> ∅.
Proof. set_solver. Qed.

(** Once a child or a needed directory has been found, it stays found. *)
Lemma scan_dir_keeps (prefix : string) (kv : string * MapFile)
    (acc : list mapFileInfo * gset string) :
  fst acc <> [] \/ snd acc <> ∅ ->
  fst (scan_dir prefix kv acc) <> [] \/ snd (scan_dir prefix kv acc) <> ∅.
Proof.
  intros H. unfold scan_dir.
  destruct (strip_prefix prefix (fst kv)) as [felem|]; [|exact H].
  destruct (before_slash felem) as [head|]; simpl.
  - right. apply singleton_union_nonempty.
  - left. discriminate.
Qed.

(** A declared path below [prefix] yields a child or a needed directory. *)
Lemma scan_dir_finds (prefix : string) (l : list (string * MapFile))
    (k : string) (f : MapFile) (felem : string) :
  (k, f) ∈ l -> strip_prefix prefix k = Some felem ->
  fst (foldr (scan_dir prefix) ([], ∅) l) <> []
  \/ snd (foldr (scan_dir prefix) ([], ∅) l) <> ∅.
Proof.
  intros Hin Hpre. induction l as [|kv l IH]; [inversion Hin|].
  simpl. apply elem_of_cons in Hin as [<-|Hin].
  - unfold scan_dir. simpl. rewrite Hpre.
    destruct (before_slash felem) as [head|]; simpl.
    + right. apply singleton_union_nonempty.
    + left. discriminate.
  - apply scan_dir_keeps. auto.
Qed.

(** [fstest.MapFS.Open] on a valid path without a record, which is the
    root or lies above a declared path: a directory is synthesized. *)
Lemma fstest_Open_implied (synthPerm : Z) (fsys : gmap string MapFile)
    (name : string) :
  ValidPath name = true -> fsys !! name = None ->
  (name = "." \/
   exists rest f, fsys !! (name ++ "/" ++ rest)%string = Some f) ->
  exists elem entry,
    fstest_Open synthPerm fsys name
    = inr (mapDir name (mkMapFileInfo elem (synthesized synthPerm)) entry 0).
Proof.
  intros Hvalid Hnone Himplied. unfold fstest_Open.
  rewrite Hvalid, Hnone. simpl.
  case_bool_decide as Hroot.
  - destruct (foldr scan_root ([], ∅) (map_to_list fsys)) as [children need].
    eexists _, _. reflexivity.
  - destruct Himplied as [?|(rest & f & Hf)]; [contradiction|].
    pose proof (scan_dir_finds (name ++ "/") (map_to_list fsys)
                  (name ++ "/" ++ rest)%string f rest) as Hfound.
    destruct (foldr (scan_dir (name ++ "/")) ([], ∅) (map_to_list fsys))
      as [children need].
    simpl in Hfound.
    destruct Hfound as [Hc|Hn].
    + apply elem_of_map_to_list. exact Hf.
    + replace (name ++ "/" ++ rest)%string
        with ((name ++ "/") ++ rest)%string
        by apply string_app_assoc.
      apply strip_prefix_app.
    + rewrite (bool_decide_false _ Hc). simpl. eexists _, _. reflexivity.
    + rewrite (bool_decide_false _ Hn), andb_false_r.
      eexists _, _. reflexivity.
Qed.

(** C3, as stated, fails for [MapFS.Stat]: on a directory that is only
    implied it reports what [testing/fstest] synthesizes, which is
    directory|0555 (directory alone in older releases of Go), not
    directory|0700. *)
Lemma MapFS_Stat_implied_directory :
  implied !! "dir" = None
  /\ MapFS_Stat perm_0555 implied "dir"
     = (Some (mkFileInfo "dir" 0 (Z.lor ModeDir perm_0555) 0 true 0 0),
        nil_error)
  /\ Z.lor ModeDir perm_0555 <> Z.lor ModeDir perm_0700
  /\ MapFS_Stat 0 implied "dir"
     = (Some (mkFileInfo "dir" 0 ModeDir 0 true 0 0), nil_error)
  /\ ModeDir <> Z.lor ModeDir perm_0700.
Proof.
  split; [|split; [|split; [|split]]]; vm_compute; congruence.
Qed.

(** C3, amended. Opening a valid path that has no record and is the root or
    lies above a declared path succeeds, and [Stat] on the file returned
    reports the mode directory|0700, whatever mode [testing/fstest]
    synthesized for it; [MapFS.Stat] on the path reports that synthesized
    mode. *)
Theorem MapFS_Open_implied_directory (synthPerm : Z)
    (fsys : gmap string MapFile) (name : string) :
  ValidPath name = true -> fsys !! name = None ->
  (name = "." \/
   exists rest f, fsys !! (name ++ "/" ++ rest)%string = Some f) ->
  (exists h info,
     MapFS_Open synthPerm fsys name = (Some h, nil_error)
     /\ mapfile_Stat h = (info, nil_error)
     /\ fi_Mode info = Z.lor ModeDir perm_0700
     /\ Type_ (fi_Mode info) = ModeDir
     /\ Perm (fi_Mode info) = perm_0700
     /\ fi_IsDir info = true)
  /\ (exists info,
        MapFS_Stat synthPerm fsys name = (Some info, nil_error)
        /\ fi_Mode info = Z.lor ModeDir synthPerm).
Proof.
  intros Hvalid Hnone Himplied.
  destruct (fstest_Open_implied synthPerm fsys name Hvalid Hnone Himplied)
    as (elem & entry & Hopen).
  split.
  - unfold MapFS_Open. rewrite Hopen. simpl.
    rewrite lor_ModeDir_IsDir, Hnone, bool_decide_true by reflexivity.
    simpl. eexists _, _. split; [reflexivity|].
    split; [reflexivity|]. simpl.
    rewrite lor_ModeDir_IsDir. repeat split; reflexivity.
  - unfold MapFS_Stat, fstest_Stat. rewrite Hopen. simpl.
    eexists. split; reflexivity.
Qed.

Lemma MapFS_Open_implied_directory_witness :
  (exists h info,
     MapFS_Open perm_0555 implied "dir" = (Some h, nil_error)
     /\ mapfile_Stat h = (info, nil_error)
     /\ fi_Mode info = Z.lor ModeDir perm_0700
     /\ Type_ (fi_Mode info) = ModeDir
     /\ Perm (fi_Mode info) = perm_0700
     /\ fi_IsDir info = true)
  /\ (exists info,
        MapFS_Stat perm_0555 implied "dir" = (Some info, nil_error)
        /\ fi_Mode info = Z.lor ModeDir perm_0555).
Proof.
  apply (MapFS_Open_implied_directory perm_0555 implied "dir").
  - vm_compute; reflexivity.
  - vm_compute; reflexivity.
  - right. exists "file", (mkMapFile (list_byte_of_string "Hello World!")
                             perm_0644 0).
    vm_compute; reflexivity.
Defined.

(** ** The buffer *)



Lemma make_bytes_length (n : Z) : len (make_bytes n) = Z.max 0 n.
Proof. unfold len, make_bytes. rewrite repeat_length. lia. Qed.

(** The two parts of the buffer: the first has half its length, rounded
    down, and the second has the rest. *)
Lemma equalData_halves (source target : FS) (fuel : nat)
    (sourceFile : option (File source)) (targetFile : option (File target))
    (buf : list byte) :
  equalData source target fuel sourceFile targetFile buf
  = equalData_loop source target fuel sourceFile targetFile
      (length buf / 2) (length buf - length buf / 2).
Proof.
  unfold equalData. rewrite length_take, length_drop.
  rewrite Nat.min_l; [reflexivity|].
  apply Nat.Div0.div_le_upper_bound. lia.
Qed.


(** C4, where the code departs from it. A buffer of 1025 bytes is long
    enough to be used as it is, and is cut in parts of 512 and 513 bytes;
    a file system that holds a file of 513 bytes, compared with itself
    through this buffer, is then found unequal, for the first [Read]
    returns 512 bytes on one side and 513 on the other. *)
Theorem EqualFSBuffer_odd_buffer :
  equalFSMinSize <= len (make_bytes 1025)
  /\ length (firstn (length (make_bytes 1025) / 2) (make_bytes 1025))
     = 512%nat
  /\ length (skipn (length (make_bytes 1025) / 2) (make_bytes 1025))
     = 513%nat
  /\ result (EqualFSBuffer (MapFS_FS perm_0555 big) (MapFS_FS perm_0555 big)
               2 (make_bytes 1025))
     = Return (PathError "equal" "big"
                 (ErrorfW (Errorf "file read size mismatch: want=%d got=%d"
                             [ArgInt 512; ArgInt 513]))).
Proof.
  split; [|split; [|split]]; vm_compute; congruence.
Qed.

(** ** Files that cannot be opened *)

(** When [Open] fails on both sides with errors of one root cause,
    [equalFile] goes on to [equalData] with two nil files, and panics. *)
Lemma equalFile_open_errors_equivalent (source target : FS) (fuel : nat)
    (name : string) (buf : list byte) (si ti : FileInfo)
    (err1 err2 : error) :
  fs_Stat source name = (Some si, nil_error) ->
  fs_Stat target name = (Some ti, nil_error) ->
  same_metadata si ti ->
  fs_Open source name = (None, err1) ->
  fs_Open target name = (None, err2) ->
  err1 <> nil_error -> err2 <> nil_error -> unwrap err1 = unwrap err2 ->
  equalFile source target (S fuel) name buf
  = ([EvStat Source name; EvStat Target name;
      EvOpen Source name; EvOpen Target name],
     Panic nil_dereference).
Proof.
  intros Hs Ht Hmeta Ho1 Ho2 H1 H2 Hroot.
  apply equalStatInfo_nil_iff in Hmeta.
  assert (His : errors_Is err1 (unwrap err2) = true).
  { apply errors_Is_unwrap. right. auto. }
  apply is_nil_false in H1, H2.
  unfold equalFile, equalStat, defer_Close. rewrite Hs, Ht, Ho1, Ho2. simpl.
  rewrite Hmeta. simpl. rewrite H1, H2, His. reflexivity.
Qed.

(** C1, where the code departs from it. The file [secret] cannot be opened
    on either side, with the same error on both; the comparison of the
    file system with itself does not succeed but panics, on the [Read] of
    a nil file. *)
Theorem EqualFS_unreadable_file_panics :
  errors_Is (PathError "open" "secret" ErrPermission)
    (unwrap (PathError "open" "secret" ErrPermission)) = true
  /\ EqualFS unreadable unreadable 2
     = ([EvReadDir Source "."; EvReadDir Target ".";
         EvStat Source "secret"; EvStat Target "secret";
         EvOpen Source "secret"; EvOpen Target "secret"],
        Panic nil_dereference).
Proof. split; vm_compute; reflexivity. Qed.

(** ** A file system that cannot be listed *)


(** ** Reading two files in lockstep *)




(** One turn of the loop. *)
Lemma equalData_loop_step (source target : FS) (fuel : nat)
    (sf : File source) (tf : File target) (len1 len2 : nat) :
  result (equalData_loop source target (S fuel) (Some sf) (Some tf) len1 len2)
  = match round_outcome (snd (file_Read source sf len1))
            (snd (file_Read target tf len2)) with
    | Some e => Return e
    | None =>
        result (equalData_loop source target fuel
                  (Some (fst (file_Read source sf len1)))
                  (Some (fst (file_Read target tf len2))) len1 len2)
    end.
Proof.
  simpl. unfold round_outcome.
  destruct (file_Read source sf len1) as [sf' [b1 err1]].
  destruct (file_Read target tf len2) as [tf' [b2 err2]]. simpl.
  destruct (negb (bool_decide (length b1 = length b2))); [reflexivity|].
  destruct (negb (bytes_Equal b1 b2)); [reflexivity|].
  destruct (negb (bool_decide (err1 = err2))); [reflexivity|].
  destruct (negb (is_nil err1)); [reflexivity|].
  destruct (equalData_loop source target fuel (Some sf') (Some tf') len1 len2).
  reflexivity.
Qed.





(** ** Comparing a file system with itself *)

















(** * Further properties *)

(** ** Traces *)

Lemma trace_bind_Return {A B} (m : M A) (k : A -> M B) (a : A) :
  result m = Return a -> trace (m ≫= k) = trace m ++ trace (k a).
Proof.
  destruct m as [tr r]; simpl; intros ->.
  unfold mbind, M_bind, bind. destruct (k a); reflexivity.
Qed.

Lemma trace_call_bind {A B} ev (a : A) (k : A -> M B) :
  trace (call ev a ≫= k) = ev :: trace (k a).
Proof. unfold mbind, M_bind, bind, call. destruct (k a); reflexivity. Qed.

Lemma trace_defer {A} evs (m : M A) : trace (defer evs m) = trace m ++ evs.
Proof. reflexivity. Qed.

(** A computation is the pair of its trace and its result. *)
Lemma M_eta {A} (m : M A) : m = (trace m, result m).
Proof. destruct m; reflexivity. Qed.

(** ** Root causes *)

Lemma unwrap_of_root (e : error) :
  errors_Unwrap e = nil_error -> unwrap e = e.
Proof. destruct e; simpl; intros H; try reflexivity; rewrite H; reflexivity. Qed.

(** [errors.Unwrap] of an error that wraps another is that other error. *)
Lemma iter_Unwrap_S (n : nat) (e : error) :
  Nat.iter (S n) errors_Unwrap e = Nat.iter n errors_Unwrap (errors_Unwrap e).
Proof. apply Nat.iter_succ_r. Qed.

(** The chain of an error that wraps [cause]. *)
Lemma unwrap_chain_step (e cause : error) (n : nat) :
  errors_Unwrap e = cause -> cause <> nil_error ->
  (forall j, (j < n)%nat -> Nat.iter (S j) errors_Unwrap cause <> nil_error) ->
  forall j, (j < S n)%nat -> Nat.iter (S j) errors_Unwrap e <> nil_error.
Proof.
  intros He Hcause Hchain j Hj. rewrite iter_Unwrap_S, He.
  destruct j as [|j]; [exact Hcause|]. apply Hchain. lia.
Qed.

(** X1. [unwrap] returns the innermost error of the chain of [e]: the
    error that some number [n] of calls of [errors.Unwrap] reach from [e],
    none of them returning nil, and that wraps nothing itself.  It is nil
    only for the nil error, and [unwrap] leaves it as it is. *)
Theorem unwrap_innermost (e : error) :
  (exists n : nat,
     unwrap e = Nat.iter n errors_Unwrap e
     /\ forall j, (j < n)%nat -> Nat.iter (S j) errors_Unwrap e <> nil_error)
  /\ errors_Unwrap (unwrap e) = nil_error
  /\ unwrap (unwrap e) = unwrap e
  /\ (unwrap e = nil_error <-> e = nil_error).
Proof.
  split; [|split; [apply unwrap_root|split; [|apply unwrap_nil_iff]]].
  - induction e as [|text|op path cause IH|format args|format want _ got _
                    |cause IH|code];
      try (exists 0%nat; split; [reflexivity|intros j Hj; lia]).
    + cbn [unwrap]. destruct (is_nil cause) eqn:E.
      * exists 0%nat. split; [reflexivity|intros j Hj; lia].
      * apply is_nil_false in E. destruct IH as (n & Hn & Hchain).
        exists (S n). split; [rewrite iter_Unwrap_S; exact Hn|].
        apply (unwrap_chain_step _ cause); auto.
    + cbn [unwrap]. destruct (is_nil cause) eqn:E.
      * exists 0%nat. split; [reflexivity|intros j Hj; lia].
      * apply is_nil_false in E. destruct IH as (n & Hn & Hchain).
        exists (S n). split; [rewrite iter_Unwrap_S; exact Hn|].
        apply (unwrap_chain_step _ cause); auto.
  - apply unwrap_of_root, unwrap_root.
Qed.




(** ** Errors of the file systems *)

(** X3. When [fs.Stat] fails on a side, [equalStat] returns that error as
    it is; after a failure on the source the target is not asked. *)
Theorem equalStat_returns_stat_error (source target : FS) (name : string)
    (si ti : option FileInfo) (err1 err2 : error) :
  fs_Stat source name = (si, err1) ->
  fs_Stat target name = (ti, err2) ->
  err1 <> nil_error \/ err2 <> nil_error ->
  equalStat source target name
  = if is_nil err1
    then ([EvStat Source name; EvStat Target name], Return err2)
    else ([EvStat Source name], Return err1).
Proof.
  intros Hs Ht Herr. unfold equalStat. rewrite Hs, Ht.
  destruct (is_nil err1) eqn:E1; simpl; rewrite E1; simpl; [|reflexivity].
  apply is_nil_true in E1. subst err1.
  destruct Herr as [H|H]; [congruence|].
  apply is_nil_false in H. rewrite H. reflexivity.
Qed.

Lemma equalStat_returns_stat_error_witness :
  equalStat (MapFS_FS perm_0555 test_a) missing "dir/file"
  = ([EvStat Source "dir/file"; EvStat Target "dir/file"],
     Return (PathError "stat" "dir/file" ErrNotExist)).
Proof.
  apply (equalStat_returns_stat_error (MapFS_FS perm_0555 test_a) missing
           "dir/file" (Some (mkFileInfo "file" 12 perm_0644 0 false 0 0))
           None nil_error (PathError "stat" "dir/file" ErrNotExist)).
  - vm_compute; reflexivity.
  - vm_compute; reflexivity.
  - right. discriminate.
Defined.

(** X4. [equalSymlink] always returns: nil exactly when both links are
    read and are the same text; the error of a failed [ReadLink] as it is,
    the source's first; and otherwise a mismatch that names the path. *)
Theorem equalSymlink_cases (source target : FS) (name : string)
    (l1 l2 : string) (e1 e2 : error) :
  fslink_ReadLink source name = (l1, e1) ->
  fslink_ReadLink target name = (l2, e2) ->
  exists e,
    result (equalSymlink source target name) = Return e
    /\ (e = nil_error <-> e1 = nil_error /\ e2 = nil_error /\ l1 = l2)
    /\ (e1 <> nil_error -> e = e1)
    /\ (e1 = nil_error -> e2 <> nil_error -> e = e2)
    /\ (e1 = nil_error -> e2 = nil_error -> l1 <> l2 ->
        e = PathError "equal" name
              (Errorf "symbolic links mimatch: want=%q got=%q"
                 [ArgStr l1; ArgStr l2])).
Proof.
  intros H1 H2. unfold equalSymlink. rewrite H1, H2.
  destruct (is_nil e1) eqn:E1; simpl; rewrite ?E1; simpl.
  - apply is_nil_true in E1. subst e1.
    destruct (is_nil e2) eqn:E2; simpl; rewrite ?E2; simpl.
    + apply is_nil_true in E2. subst e2.
      case_bool_decide as Hl; simpl; eexists; (split; [reflexivity|]).
      * repeat split; auto; congruence.
      * split; [split; [discriminate|tauto]|]. repeat split; congruence.
    + apply is_nil_false in E2.
      exists e2. split; [reflexivity|].
      split; [split; [congruence|tauto]|]. repeat split; congruence.
  - apply is_nil_false in E1.
    exists e1. split; [reflexivity|].
    split; [split; [congruence|tauto]|]. repeat split; congruence.
Qed.

Lemma equalSymlink_cases_witness :
  exists e,
    result (equalSymlink (MapFS_FS perm_0555 test_a)
              (MapFS_FS perm_0555 test_b) "dir/symlink") = Return e
    /\ (e = nil_error <->
        nil_error = nil_error /\ nil_error = nil_error /\ "../file" = "")
    /\ (nil_error <> nil_error -> e = nil_error)
    /\ (nil_error = nil_error -> nil_error <> nil_error -> e = nil_error)
    /\ (nil_error = nil_error -> nil_error = nil_error -> "../file" <> "" ->
        e = PathError "equal" "dir/symlink"
              (Errorf "symbolic links mimatch: want=%q got=%q"
                 [ArgStr "../file"; ArgStr ""])).
Proof.
  apply (equalSymlink_cases (MapFS_FS perm_0555 test_a)
           (MapFS_FS perm_0555 test_b) "dir/symlink");
    vm_compute; reflexivity.
Defined.

(** X5. [equalNode] calls nothing but [fs.Stat], on the path it is given,
    and what it returns is nil or an error of operation "equal" on that
    path. *)
Theorem equalNode_stats_only (source target : FS) (name : string) :
  (forall ev, In ev (trace (equalNode source target name)) ->
              ev = EvStat Source name \/ ev = EvStat Target name)
  /\ (forall e, result (equalNode source target name) = Return e ->
                e = nil_error
                \/ exists cause, cause <> nil_error
                     /\ e = PathError "equal" name (ErrorfW cause)).
Proof.
  unfold equalNode, equalStat.
  destruct (fs_Stat source name) as [si e1], (fs_Stat target name) as [ti e2].
  destruct (is_nil e1) eqn:E1; simpl; repeat (rewrite E1; simpl).
  2:{ split; [intros ev [<-|[]]; auto|].
      intros e [= <-]. right. exists e1. split; [|reflexivity].
      now apply is_nil_false. }
  destruct (is_nil e2) eqn:E2; simpl; repeat (rewrite E2; simpl).
  2:{ split; [intros ev [<-|[<-|[]]]; auto|].
      intros e [= <-]. right. exists e2. split; [|reflexivity].
      now apply is_nil_false. }
  destruct si as [si|], ti as [ti|]; simpl;
    try (split; [intros ev [<-|[<-|[]]]; auto|discriminate]).
  destruct (is_nil (equalStatInfo si ti)) eqn:E; simpl;
    repeat (rewrite E; simpl);
    (split; [intros ev [<-|[<-|[]]]; auto|]); intros e [= <-].
  - now left.
  - right. eexists. split; [|reflexivity]. now apply is_nil_false.
Qed.

(** ** Comparing one file *)

(** X6. When the metadata check fails, [equalFile] opens nothing: it makes
    the calls of [equalStat] and no other, and returns the error of
    [equalStat] wrapped once, under operation "equal" and the path, with
    its root cause kept. *)
Theorem equalFile_stat_failure (source target : FS) (fuel : nat)
    (name : string) (buf : list byte) (err : error) :
  result (equalStat source target name) = Return err ->
  err <> nil_error ->
  equalFile source target fuel name buf
  = (trace (equalStat source target name),
     Return (PathError "equal" name (ErrorfW err)))
  /\ unwrap (PathError "equal" name (ErrorfW err)) = unwrap err.
Proof.
  intros Hres Herr. apply is_nil_false in Herr. split.
  - unfold equalFile.
    destruct (equalStat source target name) as [tr r]. simpl in Hres.
    subst r. unfold mbind, M_bind, bind. rewrite Herr. simpl.
    rewrite app_nil_r. reflexivity.
  - simpl. rewrite Herr. reflexivity.
Qed.

Lemma equalFile_stat_failure_witness :
  equalFile (MapFS_FS perm_0555 test_a) (MapFS_FS perm_0555 test_b) 0
    "dir/symlink" []
  = (trace (equalStat (MapFS_FS perm_0555 test_a) (MapFS_FS perm_0555 test_b)
              "dir/symlink"),
     Return (PathError "equal" "dir/symlink"
               (ErrorfW (Errorf "files sizes mismatch: want=%d got=%d"
                           [ArgInt 7; ArgInt 0]))))
  /\ unwrap (PathError "equal" "dir/symlink"
               (ErrorfW (Errorf "files sizes mismatch: want=%d got=%d"
                           [ArgInt 7; ArgInt 0])))
     = unwrap (Errorf "files sizes mismatch: want=%d got=%d"
                 [ArgInt 7; ArgInt 0]).
Proof.
  apply (equalFile_stat_failure (MapFS_FS perm_0555 test_a)
           (MapFS_FS perm_0555 test_b) 0 "dir/symlink" []).
  - vm_compute; reflexivity.
  - discriminate.
Defined.

(** The loop of [equalData] calls nothing but [Read]. *)
Lemma equalData_loop_reads_only (source target : FS) (len1 len2 : nat)
    (fuel : nat) :
  forall (sf : option (File source)) (tf : option (File target)) (ev : event),
    In ev (trace (equalData_loop source target fuel sf tf len1 len2)) ->
    exists sd n, ev = EvRead sd n.
Proof.
  induction fuel as [|fuel IH]; intros sf tf ev; [intros []|].
  cbn [equalData_loop]. destruct sf as [sf|]; [|intros []].
  destruct (file_Read source sf len1) as [sf' [b1 err1]].
  rewrite trace_call_bind. cbv beta iota.
  intros [<-|Hin]; [eauto|].
  destruct tf as [tf|]; [|destruct Hin].
  destruct (file_Read target tf len2) as [tf' [b2 err2]].
  rewrite trace_call_bind in Hin. cbv beta iota in Hin.
  destruct Hin as [<-|Hin]; [eauto|].
  destruct (negb (bool_decide (length b1 = length b2))); [destruct Hin|].
  destruct (negb (bytes_Equal b1 b2)); [destruct Hin|].
  destruct (negb (bool_decide (err1 = err2))); [destruct Hin|].
  destruct (negb (is_nil err1)); [destruct Hin|].
  eapply IH. exact Hin.
Qed.

Lemma trace_bind_silent {A B} (m : M A) (k : A -> M B) :
  (forall a, trace (k a) = []) -> trace (m ≫= k) = trace m.
Proof.
  intros Hk. destruct m as [tr [a|reason|]]; try reflexivity.
  specialize (Hk a). unfold mbind, M_bind, bind.
  destruct (k a) as [tr' r]. simpl in *. subst tr'. apply app_nil_r.
Qed.

(** An [Open] that returns no error returns a file: the [Close] of that
    file is deferred. *)
Lemma defer_Close_opened {A F} (sd : side) (name : string) (file : option F)
    (err : error) (m : M A) :
  (err = nil_error -> file <> None) ->
  defer_Close sd name file err m
  = defer (if is_nil err then [EvClose sd name] else []) m.
Proof.
  intros Hfile. unfold defer_Close, defer.
  destruct (is_nil err) eqn:E.
  - apply is_nil_true in E. destruct file; [reflexivity|].
    now destruct (Hfile E).
  - rewrite app_nil_r. destruct m; reflexivity.
Qed.

(** X7. [equalFile] closes what it opened.  Once the metadata check has
    passed, and when an [Open] that returns no error returns a file, the
    calls of [equalFile] are those of the check, the two calls of [Open],
    calls of [Read] only, and at the end one [Close] for each side whose
    [Open] returned no error, the target's first: whatever the outcome,
    be it a mismatch, a panic or the end of the fuel. *)
Theorem equalFile_closes_opened (source target : FS) (fuel : nat)
    (name : string) (buf : list byte)
    (sf : option (File source)) (tf : option (File target))
    (err1 err2 : error) :
  result (equalStat source target name) = Return nil_error ->
  fs_Open source name = (sf, err1) ->
  fs_Open target name = (tf, err2) ->
  (err1 = nil_error -> sf <> None) ->
  (err2 = nil_error -> tf <> None) ->
  exists reads,
    (forall ev, In ev reads -> exists sd n, ev = EvRead sd n)
    /\ trace (equalFile source target fuel name buf)
       = trace (equalStat source target name)
         ++ [EvOpen Source name; EvOpen Target name]
         ++ reads
         ++ (if is_nil err2 then [EvClose Target name] else [])
         ++ (if is_nil err1 then [EvClose Source name] else []).
Proof.
  intros Hstat Ho1 Ho2 Hsf Htf. unfold equalFile.
  rewrite (trace_bind_Return _ _ nil_error Hstat). cbn [negb is_nil].
  rewrite Ho1, trace_call_bind. cbv beta iota.
  rewrite (defer_Close_opened _ _ _ _ _ Hsf), trace_defer.
  rewrite Ho2, trace_call_bind. cbv beta iota.
  rewrite (defer_Close_opened _ _ _ _ _ Htf), trace_defer.
  destruct ((negb (is_nil err1) || negb (is_nil err2))
            && negb (errors_Is err1 (unwrap err2))).
  - exists []. split; [intros ev []|]. reflexivity.
  - exists (trace (equalData source target fuel sf tf buf)).
    split; [intros ev; apply equalData_loop_reads_only|].
    rewrite trace_bind_silent.
    2:{ intros a. destruct (negb (is_nil a)); reflexivity. }
    cbn [app]. rewrite <- app_assoc. reflexivity.
Qed.

Lemma equalFile_closes_opened_witness :
  exists reads,
    (forall ev, In ev reads -> exists sd n, ev = EvRead sd n)
    /\ trace (equalFile (MapFS_FS perm_0555 test_a)
                (MapFS_FS perm_0555 test_b) 3 "dir/file" (make_bytes 1024))
       = trace (equalStat (MapFS_FS perm_0555 test_a)
                  (MapFS_FS perm_0555 test_b) "dir/file")
         ++ [EvOpen Source "dir/file"; EvOpen Target "dir/file"]
         ++ reads
         ++ (if is_nil nil_error then [EvClose Target "dir/file"] else [])
         ++ (if is_nil nil_error then [EvClose Source "dir/file"] else []).
Proof.
  apply (equalFile_closes_opened (MapFS_FS perm_0555 test_a)
           (MapFS_FS perm_0555 test_b) 3 "dir/file" (make_bytes 1024)
           (Some (openMapFile "dir/file"
                    (mkMapFileInfo "file"
                       (mkMapFile (list_byte_of_string "Hello World!")
                          perm_0644 0)) 0))
           (Some (openMapFile "dir/file"
                    (mkMapFileInfo "file"
                       (mkMapFile (list_byte_of_string "Hello World!")
                          perm_0644 0)) 0))
           nil_error nil_error).
  - vm_compute; reflexivity.
  - vm_compute; reflexivity.
  - vm_compute; reflexivity.
  - discriminate.
  - discriminate.
Defined.

(** X8. Once the metadata check has passed, and when an [Open] that
    returns no error returns a file: if [Open] fails on one side only, or
    fails on both sides with [errors.Is(err1, unwrap(err2))] false, then
    [equalFile] makes the calls of the check and the two calls of [Open],
    reads nothing, closes the file of the side that has one, and returns
    the open-error mismatch, under operation "equal" and the path, with
    the two errors as they were returned. *)
Lemma equalFile_open_error_mismatch (source target : FS) (fuel : nat)
    (name : string) (buf : list byte)
    (sourceFile : option (File source)) (targetFile : option (File target))
    (err1 err2 : error) :
  result (equalStat source target name) = Return nil_error ->
  fs_Open source name = (sourceFile, err1) ->
  fs_Open target name = (targetFile, err2) ->
  (err1 = nil_error -> sourceFile <> None) ->
  (err2 = nil_error -> targetFile <> None) ->
  (err1 = nil_error /\ err2 <> nil_error)
  \/ (err1 <> nil_error /\ err2 = nil_error)
  \/ (err1 <> nil_error /\ err2 <> nil_error
      /\ errors_Is err1 (unwrap err2) = false) ->
  equalFile source target fuel name buf
  = (trace (equalStat source target name)
       ++ [EvOpen Source name; EvOpen Target name]
       ++ (if is_nil err2 then [EvClose Target name] else [])
       ++ (if is_nil err1 then [EvClose Source name] else []),
     Return (PathError "equal" name
               (ErrorfV "file open error mismatch: want=%v got=%v"
                  err1 err2))).
Proof.
  intros Hstat Ho1 Ho2 Hsf Htf Hfail.
  assert (Htest : (negb (is_nil err1) || negb (is_nil err2))
                  && negb (errors_Is err1 (unwrap err2)) = true).
  { destruct Hfail as [[-> H2]|[[H1 ->]|(H1 & H2 & His)]].
    - assert (His : errors_Is nil_error (unwrap err2) = false).
      { unfold errors_Is. cbn [is_nil orb]. apply bool_decide_false.
        intros E. symmetry in E.
        exact (H2 (proj1 (unwrap_nil_iff err2) E)). }
      apply is_nil_false in H2. rewrite H2, His. reflexivity.
    - apply is_nil_false in H1. rewrite H1.
      unfold errors_Is. cbn [unwrap is_nil orb negb andb].
      rewrite orb_true_r. rewrite bool_decide_false; [reflexivity|].
      intros ->. discriminate.
    - apply is_nil_false in H1. rewrite H1, His. reflexivity. }
  rewrite (M_eta (equalFile source target fuel name buf)). f_equal.
  - unfold equalFile.
    rewrite (trace_bind_Return _ _ nil_error Hstat). cbn [negb is_nil].
    rewrite Ho1, trace_call_bind. cbv beta iota.
    rewrite (defer_Close_opened _ _ _ _ _ Hsf), trace_defer.
    rewrite Ho2, trace_call_bind. cbv beta iota.
    rewrite (defer_Close_opened _ _ _ _ _ Htf), trace_defer.
    rewrite Htest. reflexivity.
  - unfold equalFile.
    rewrite (result_bind_Return _ _ nil_error Hstat). cbn [negb is_nil].
    rewrite Ho1, result_call_bind. cbv beta iota.
    rewrite (defer_Close_opened _ _ _ _ _ Hsf), result_defer.
    rewrite Ho2, result_call_bind. cbv beta iota.
    rewrite (defer_Close_opened _ _ _ _ _ Htf), result_defer.
    rewrite Htest. reflexivity.
Qed.

Lemma equalFile_open_error_mismatch_witness :
  equalFile (MapFS_FS perm_0555 locked) unreadable 1 "secret" []
  = (trace (equalStat (MapFS_FS perm_0555 locked) unreadable "secret")
       ++ [EvOpen Source "secret"; EvOpen Target "secret"]
       ++ (if is_nil (PathError "open" "secret" ErrPermission)
           then [EvClose Target "secret"] else [])
       ++ (if is_nil nil_error then [EvClose Source "secret"] else []),
     Return (PathError "equal" "secret"
               (ErrorfV "file open error mismatch: want=%v got=%v"
                  nil_error (PathError "open" "secret" ErrPermission)))).
Proof.
  apply (equalFile_open_error_mismatch (MapFS_FS perm_0555 locked) unreadable
           1 "secret" []
           (Some (denyReadPermission
                    (openMapFile "secret"
                       (mkMapFileInfo "secret"
                          (mkMapFile (list_byte_of_string "hidden") 0 0)) 0)))
           None nil_error (PathError "open" "secret" ErrPermission)).
  - vm_compute; reflexivity.
  - vm_compute; reflexivity.
  - vm_compute; reflexivity.
  - discriminate.
  - discriminate.
  - left. split; [reflexivity|discriminate].
Defined.

(** X9. [equalData] panics on a nil file: on a nil source at once, before
    any call, whatever the target; on a nil target after one [Read] of the
    source, into the first half of the buffer, whatever that call
    returns. *)
Theorem equalData_panics_on_nil (source target : FS) (fuel : nat)
    (buf : list byte) :
  (forall tf,
     equalData source target (S fuel) None tf buf
     = ([], Panic nil_dereference))
  /\ (forall sf,
        equalData source target (S fuel) (Some sf) None buf
        = ([EvRead Source (length buf / 2)], Panic nil_dereference)).
Proof.
  split; [reflexivity|].
  intros sf. rewrite equalData_halves. cbn [equalData_loop].
  destruct (file_Read source sf (length buf / 2)) as [sf' [b1 err1]].
  reflexivity.
Qed.

(** ** Walking a directory *)

(** One turn of the loop over the entries. *)
Lemma equalEntries_cons (source target : FS)
    (recurse : string -> list byte -> M error) (fuel : nat) (name : string)
    (buf : list byte) (i : nat) (s t : DirEntry) (ss ts : list DirEntry) :
  equalEntries source target recurse fuel name buf i (s :: ss) (t :: ts)
  = if negb (bool_decide (de_Name s = de_Name t)) then
      ret (equalErrorf name
             (Errorf "name of directory entry %d mismatch: want=%q got=%q"
                [ArgInt (Z.of_nat i); ArgStr (de_Name s); ArgStr (de_Name t)]))
    else if negb (de_Type s =? de_Type t) then
      ret (equalErrorf name
             (Errorf "name of directory entry %q mismatch: want=%v got=%v"
                [ArgStr (de_Name s); ArgMode (de_Type s);
                 ArgMode (de_Type t)]))
    else
      equalEntry source target recurse fuel
        (path_Join name (de_Name s)) buf (de_Type s)
      ≫= fun err =>
           if negb (is_nil err) then ret err
           else equalEntries source target recurse fuel name buf (S i) ss ts.
Proof. reflexivity. Qed.

(** Entries that compare equal are passed over: the loop goes on with the
    entries after them. *)
Lemma equalEntries_app (source target : FS)
    (recurse : string -> list byte -> M error) (fuel : nat) (name : string)
    (buf : list byte) :
  forall (pre pre' ss ts : list DirEntry) (i : nat) (tr0 : list event),
    length pre = length pre' ->
    equalEntries source target recurse fuel name buf i pre pre'
    = (tr0, Return nil_error) ->
    equalEntries source target recurse fuel name buf i
      (pre ++ ss) (pre' ++ ts)
    = (tr0 ++ trace (equalEntries source target recurse fuel name buf
                       (i + length pre) ss ts),
       result (equalEntries source target recurse fuel name buf
                 (i + length pre) ss ts)).
Proof.
  induction pre as [|p pre IH]; intros [|p' pre'] ss ts i tr0 Hlen H;
    try discriminate Hlen.
  - injection H as <-. simpl. rewrite Nat.add_0_r. apply M_eta.
  - change ((p :: pre) ++ ss) with (p :: (pre ++ ss)).
    change ((p' :: pre') ++ ts) with (p' :: (pre' ++ ts)).
    rewrite equalEntries_cons in *.
    destruct (negb (bool_decide (de_Name p = de_Name p')));
      [discriminate H|].
    destruct (negb (de_Type p =? de_Type p')); [discriminate H|].
    destruct (equalEntry source target recurse fuel
                (path_Join name (de_Name p)) buf (de_Type p))
      as [trE [e|reason|]]; unfold mbind, M_bind, bind in *;
      try discriminate H.
    destruct (is_nil e) eqn:E; simpl in *.
    + destruct (equalEntries source target recurse fuel name buf (S i)
                  pre pre') as [tr' r'] eqn:E'.
      injection H as <- ->.
      rewrite (IH pre' ss ts (S i) tr') by (auto; congruence).
      replace (i + S (length pre))%nat with (S i + length pre)%nat by lia.
      rewrite app_assoc. reflexivity.
    + injection H as _ ->. discriminate E.
Qed.

(** After two listings of the same length, [equalDir] runs the loop over
    the entries. *)
Lemma equalDir_listed (source target : FS) (fuel : nat) (name : string)
    (buf : list byte) (se te : list DirEntry) :
  fs_ReadDir source name = (se, nil_error) ->
  fs_ReadDir target name = (te, nil_error) ->
  length se = length te ->
  equalDir source target (S fuel) name buf
  = ([EvReadDir Source name; EvReadDir Target name]
     ++ trace (equalEntries source target (equalDir source target fuel)
                 fuel name buf 0 se te),
     result (equalEntries source target (equalDir source target fuel)
               fuel name buf 0 se te)).
Proof.
  intros Hs Ht Hlen. cbn [equalDir]. rewrite Hs, Ht.
  unfold mbind, M_bind, bind, call.
  cbn [negb is_nil]. rewrite (bool_decide_true _ Hlen). cbn [negb].
  destruct (equalEntries source target (equalDir source target fuel)
              fuel name buf 0 se te).
  reflexivity.
Qed.

(** X10. When the listings of a directory have the same length and agree
    up to an entry whose name differs from the name at the same index on
    the other side, [equalDir] returns a mismatch for the directory's
    path that gives this index and the two names, and goes no further;
    when the names are the same and the types differ, a mismatch that
    gives the name and the two types. *)
Theorem equalDir_entry_mismatch (source target : FS) (fuel : nat)
    (name : string) (buf : list byte) (pre pre' ss ts : list DirEntry)
    (s t : DirEntry) (tr0 : list event) :
  fs_ReadDir source name = (pre ++ s :: ss, nil_error) ->
  fs_ReadDir target name = (pre' ++ t :: ts, nil_error) ->
  length pre = length pre' -> length ss = length ts ->
  equalEntries source target (equalDir source target fuel) fuel name buf 0
    pre pre' = (tr0, Return nil_error) ->
  (de_Name s <> de_Name t ->
   equalDir source target (S fuel) name buf
   = ([EvReadDir Source name; EvReadDir Target name] ++ tr0,
      Return (PathError "equal" name
                (Errorf "name of directory entry %d mismatch: want=%q got=%q"
                   [ArgInt (len pre); ArgStr (de_Name s);
                    ArgStr (de_Name t)]))))
  /\ (de_Name s = de_Name t -> de_Type s <> de_Type t ->
      equalDir source target (S fuel) name buf
      = ([EvReadDir Source name; EvReadDir Target name] ++ tr0,
         Return (PathError "equal" name
                   (Errorf "name of directory entry %q mismatch: want=%v got=%v"
                      [ArgStr (de_Name s); ArgMode (de_Type s);
                       ArgMode (de_Type t)])))).
Proof.
  intros Hs Ht Hpre Hrest Hbefore.
  assert (Hlen : length (pre ++ s :: ss) = length (pre' ++ t :: ts)).
  { rewrite !length_app. simpl. lia. }
  rewrite (equalDir_listed _ _ _ _ _ _ _ Hs Ht Hlen).
  rewrite (equalEntries_app _ _ _ _ _ _ pre pre' _ _ 0 tr0 Hpre Hbefore).
  rewrite equalEntries_cons. cbn [trace result fst snd]. split.
  - intros Hname. rewrite (bool_decide_false _ Hname). simpl.
    rewrite app_nil_r. reflexivity.
  - intros Hname Htype. rewrite (bool_decide_true _ Hname).
    apply Z.eqb_neq in Htype. rewrite Htype. simpl.
    rewrite app_nil_r. reflexivity.
Qed.

Lemma equalDir_entry_mismatch_witness :
  (de_Name (mkDirEntry "dir" ModeDir) <> de_Name (mkDirEntry "secret" 0) ->
   equalDir (MapFS_FS perm_0555 test_a) (MapFS_FS perm_0555 locked) 1 "." []
   = ([EvReadDir Source "."; EvReadDir Target "."] ++ [],
      Return (PathError "equal" "."
                (Errorf "name of directory entry %d mismatch: want=%q got=%q"
                   [ArgInt (len (@nil DirEntry));
                    ArgStr (de_Name (mkDirEntry "dir" ModeDir));
                    ArgStr (de_Name (mkDirEntry "secret" 0))]))))
  /\ (de_Name (mkDirEntry "dir" ModeDir) = de_Name (mkDirEntry "secret" 0) ->
      de_Type (mkDirEntry "dir" ModeDir) <> de_Type (mkDirEntry "secret" 0) ->
      equalDir (MapFS_FS perm_0555 test_a) (MapFS_FS perm_0555 locked) 1 "." []
      = ([EvReadDir Source "."; EvReadDir Target "."] ++ [],
         Return (PathError "equal" "."
                   (Errorf "name of directory entry %q mismatch: want=%v got=%v"
                      [ArgStr (de_Name (mkDirEntry "dir" ModeDir));
                       ArgMode (de_Type (mkDirEntry "dir" ModeDir));
                       ArgMode (de_Type (mkDirEntry "secret" 0))])))).
Proof.
  apply (equalDir_entry_mismatch (MapFS_FS perm_0555 test_a)
           (MapFS_FS perm_0555 locked) 0 "." [] [] [] [] []
           (mkDirEntry "dir" ModeDir) (mkDirEntry "secret" 0) []);
    vm_compute; reflexivity.
Defined.

(** X11. The first entry whose comparison fails ends the walk of its
    directory: [equalDir] returns the error of that entry as it is, not
    wrapped again, and makes no call after those of that entry. *)
Theorem equalDir_returns_first_failure (source target : FS) (fuel : nat)
    (name : string) (buf : list byte) (pre pre' ss ts : list DirEntry)
    (s t : DirEntry) (tr0 tr1 : list event) (err : error) :
  fs_ReadDir source name = (pre ++ s :: ss, nil_error) ->
  fs_ReadDir target name = (pre' ++ t :: ts, nil_error) ->
  length pre = length pre' -> length ss = length ts ->
  equalEntries source target (equalDir source target fuel) fuel name buf 0
    pre pre' = (tr0, Return nil_error) ->
  de_Name s = de_Name t -> de_Type s = de_Type t ->
  equalEntry source target (equalDir source target fuel) fuel
    (path_Join name (de_Name s)) buf (de_Type s) = (tr1, Return err) ->
  err <> nil_error ->
  equalDir source target (S fuel) name buf
  = ([EvReadDir Source name; EvReadDir Target name] ++ tr0 ++ tr1,
     Return err).
Proof.
  intros Hs Ht Hpre Hrest Hbefore Hname Htype Hentry Herr.
  assert (Hlen : length (pre ++ s :: ss) = length (pre' ++ t :: ts)).
  { rewrite !length_app. simpl. lia. }
  rewrite (equalDir_listed _ _ _ _ _ _ _ Hs Ht Hlen).
  rewrite (equalEntries_app _ _ _ _ _ _ pre pre' _ _ 0 tr0 Hpre Hbefore).
  rewrite equalEntries_cons, (bool_decide_true _ Hname), Hentry.
  rewrite Htype, Z.eqb_refl. cbn [negb].
  apply is_nil_false in Herr.
  unfold mbind, M_bind, bind. rewrite Herr. simpl.
  rewrite app_nil_r. reflexivity.
Qed.

Lemma equalDir_returns_first_failure_witness :
  equalDir (MapFS_FS perm_0555 test_a) (MapFS_FS perm_0555 test_b) 4 "dir"
    (make_bytes 1024)
  = ([EvReadDir Source "dir"; EvReadDir Target "dir"]
     ++ [EvStat Source "dir/file"; EvStat Target "dir/file";
         EvOpen Source "dir/file"; EvOpen Target "dir/file";
         EvRead Source 512; EvRead Target 512;
         EvRead Source 512; EvRead Target 512;
         EvClose Target "dir/file"; EvClose Source "dir/file"]
     ++ [EvReadLink Source "dir/symlink"; EvReadLink Target "dir/symlink"],
     Return (PathError "equal" "dir/symlink"
               (Errorf "symbolic links mimatch: want=%q got=%q"
                  [ArgStr "../file"; ArgStr ""]))).
Proof.
  apply (equalDir_returns_first_failure (MapFS_FS perm_0555 test_a)
           (MapFS_FS perm_0555 test_b) 3 "dir" (make_bytes 1024)
           [mkDirEntry "file" 0] [mkDirEntry "file" 0] [] []
           (mkDirEntry "symlink" ModeSymlink)
           (mkDirEntry "symlink" ModeSymlink)).
  - vm_compute; reflexivity.
  - vm_compute; reflexivity.
  - reflexivity.
  - reflexivity.
  - vm_compute; reflexivity.
  - reflexivity.
  - reflexivity.
  - vm_compute; reflexivity.
  - discriminate.
Defined.

(** X12. When a directory cannot be listed, [equalDir] returns the error
    of the listing as it is, without the path or the operation "equal"
    around it; after a failure on the source the target is not listed. *)
Theorem equalDir_returns_listing_error (source target : FS) (fuel : nat)
    (name : string) (buf : list byte) (se te : list DirEntry)
    (err1 err2 : error) :
  fs_ReadDir source name = (se, err1) ->
  fs_ReadDir target name = (te, err2) ->
  err1 <> nil_error \/ err2 <> nil_error ->
  equalDir source target (S fuel) name buf
  = if is_nil err1
    then ([EvReadDir Source name; EvReadDir Target name], Return err2)
    else ([EvReadDir Source name], Return err1).
Proof.
  intros Hs Ht Herr. cbn [equalDir]. rewrite Hs, Ht.
  unfold mbind, M_bind, bind, call.
  destruct (is_nil err1) eqn:E1; [|reflexivity]. cbn [negb].
  apply is_nil_true in E1. subst err1.
  destruct Herr as [H|H]; [congruence|].
  apply is_nil_false in H. rewrite H. reflexivity.
Qed.

Lemma equalDir_returns_listing_error_witness :
  equalDir (MapFS_FS perm_0555 test_a) missing 1 "dir" []
  = ([EvReadDir Source "dir"; EvReadDir Target "dir"],
     Return (PathError "open" "dir" ErrNotExist)).
Proof.
  apply (equalDir_returns_listing_error (MapFS_FS perm_0555 test_a) missing
           0 "dir" []
           [mkDirEntry "file" 0; mkDirEntry "symlink" ModeSymlink] []
           nil_error (PathError "open" "dir" ErrNotExist)).
  - vm_compute; reflexivity.
  - vm_compute; reflexivity.
  - right. discriminate.
Defined.



(** ** More on opening a path of the map file system *)

(** What [fstest.MapFS.Open] can return. *)
Lemma fstest_Open_cases (synthPerm : Z) (fsys : gmap string MapFile)
    (name : string) :
  fstest_Open synthPerm fsys name = inl (PathError "open" name ErrNotExist)
  \/ (exists info,
        fstest_Open synthPerm fsys name = inr (openMapFile name info 0))
  \/ (exists info entry,
        fstest_Open synthPerm fsys name = inr (mapDir name info entry 0)).
Proof.
  unfold fstest_Open. destruct (ValidPath name); simpl; [|now left].
  destruct (fsys !! name) as [f|].
  - destruct (Z.land (Mode f) ModeDir =? 0); [right; left; eauto|].
    destruct (if bool_decide (name = ".")
              then foldr scan_root ([], ∅) (map_to_list fsys)
              else foldr (scan_dir (name ++ "/")) ([], ∅) (map_to_list fsys))
      as [children need].
    right; right; eauto.
  - case_bool_decide.
    + destruct (foldr scan_root ([], ∅) (map_to_list fsys))
        as [children need].
      right; right; eauto.
    + destruct (foldr (scan_dir (name ++ "/")) ([], ∅) (map_to_list fsys))
        as [children need].
      destruct (bool_decide (children = []) && bool_decide (need = ∅));
        [now left|right; right; eauto].
Qed.

(** A path without a declared path below it yields no child and no needed
    directory. *)
Lemma scan_dir_nothing (prefix : string) (l : list (string * MapFile)) :
  (forall kv, kv ∈ l -> strip_prefix prefix (fst kv) = None) ->
  foldr (scan_dir prefix) ([], ∅) l = ([], ∅).
Proof.
  induction l as [|kv l IH]; intros H; [reflexivity|].
  simpl. rewrite IH by (intros; apply H; now right).
  unfold scan_dir. rewrite H by now left. reflexivity.
Qed.

Lemma strip_prefix_Some (prefix s rest : string) :
  strip_prefix prefix s = Some rest -> s = (prefix ++ rest)%string.
Proof.
  revert s. induction prefix as [|p prefix IH]; intros s; simpl.
  - now intros [= ->].
  - destruct s as [|c s]; [discriminate|].
    case_bool_decide as Hc; [|discriminate]. subst c.
    intros H. apply IH in H. subst s. reflexivity.
Qed.

Lemma MapFS_Open_invalid_path (synthPerm : Z) (fsys : gmap string MapFile)
    (name : string) :
  ValidPath name = false ->
  MapFS_Open synthPerm fsys name = (None, PathError "open" name ErrNotExist).
Proof.
  intros Hinvalid. unfold MapFS_Open, fstest_Open. rewrite Hinvalid.
  reflexivity.
Qed.

(** X15. [MapFS.Open] fails with "file does not exist", under operation
    "open" and the path, for a path that is not valid, and for a valid
    path other than the root that is neither declared nor above a
    declared path. *)
Theorem MapFS_Open_not_found (synthPerm : Z) (fsys : gmap string MapFile)
    (name : string) :
  ValidPath name = false
  \/ (name <> "." /\ fsys !! name = None
      /\ forall rest, fsys !! (name ++ "/" ++ rest)%string = None) ->
  MapFS_Open synthPerm fsys name = (None, PathError "open" name ErrNotExist).
Proof.
  intros [Hinvalid|(Hroot & Hnone & Hbelow)].
  - apply MapFS_Open_invalid_path. exact Hinvalid.
  - unfold MapFS_Open, fstest_Open.
    destruct (ValidPath name); [|reflexivity]. simpl.
    rewrite Hnone, (bool_decide_false _ Hroot).
    rewrite scan_dir_nothing; [reflexivity|].
    intros [k f] Hin. simpl.
    destruct (strip_prefix (name ++ "/") k) as [rest|] eqn:E; [|reflexivity].
    apply strip_prefix_Some in E. rewrite string_app_assoc in E. subst k.
    apply elem_of_map_to_list in Hin. rewrite Hbelow in Hin. discriminate.
Qed.

Lemma MapFS_Open_not_found_witness :
  MapFS_Open perm_0555 implied "other"
  = (None, PathError "open" "other" ErrNotExist).
Proof.
  apply (MapFS_Open_not_found perm_0555 implied "other").
  right. split; [discriminate|]. split; [vm_compute; reflexivity|].
  intros rest. apply lookup_singleton_ne. discriminate.
Defined.

(** X16. Opening a valid path whose record is not a directory and has the
    owner read bit returns a file that gives the record's data back.  With
    a buffer that holds them all, the first [Read] returns the data: without
    error when there are any, and with [io.EOF] when the record has no
    data; every [Read] from then on returns no byte and [io.EOF]. *)
Theorem MapFS_Open_reads_data (synthPerm : Z) (fsys : gmap string MapFile)
    (name : string) (f : MapFile) (n : nat) :
  ValidPath name = true -> fsys !! name = Some f ->
  Z.land (Mode f) ModeDir = 0 ->
  Z.land (Perm (Mode f)) perm_0400 <> 0 ->
  (length (Data f) <= n)%nat ->
  exists h h',
    MapFS_Open synthPerm fsys name = (Some h, nil_error)
    /\ mapfile_Read h n
       = (h', (Data f, if bool_decide (Data f = []) then EOF else nil_error))
    /\ (forall m, mapfile_Read h' m = (h', ([], EOF))).
Proof.
  intros Hvalid Hf Hdir Hperm Hlen.
  exists (openMapFile name (mkMapFileInfo (path_Base name) f) 0),
         (openMapFile name (mkMapFileInfo (path_Base name) f)
            (len (Data f))).
  split; [|split].
  - unfold MapFS_Open, fstest_Open. rewrite Hvalid, Hf. simpl.
    rewrite Hdir. simpl. rewrite Hdir. simpl.
    destruct (Z.eqb_spec (Z.land (Perm (Mode f)) perm_0400) 0);
      [contradiction|reflexivity].
  - cbn [mapfile_Read mfi_f]. case_bool_decide as Hdata.
    + rewrite Hdata. reflexivity.
    + unfold len.
      destruct (Z.geb_spec 0 (Z.of_nat (length (Data f)))) as [Hge|Hlt].
      { destruct (Data f); [congruence|simpl in Hge; lia]. }
      change (Z.to_nat 0) with 0%nat. rewrite drop_0.
      rewrite firstn_all2 by lia. reflexivity.
  - intros m. cbn [mapfile_Read mfi_f].
    rewrite (proj2 (Z.geb_le _ _)) by lia. reflexivity.
Qed.

Lemma MapFS_Open_reads_data_witness :
  exists h h',
    MapFS_Open perm_0555 test_a "dir/file" = (Some h, nil_error)
    /\ mapfile_Read h 512
       = (h', (list_byte_of_string "Hello World!",
               if bool_decide (list_byte_of_string "Hello World!" = [])
               then EOF else nil_error))
    /\ (forall m, mapfile_Read h' m = (h', ([], EOF))).
Proof.
  apply (MapFS_Open_reads_data perm_0555 test_a "dir/file"
           (mkMapFile (list_byte_of_string "Hello World!") perm_0644 0)
           512).
  - vm_compute; reflexivity.
  - vm_compute; reflexivity.
  - vm_compute; reflexivity.
  - vm_compute; discriminate.
  - change (12 <= 512)%nat. lia.
Defined.

(** X17. A directory that is only implied is never read-denied: whatever
    permission bits [testing/fstest] synthesizes for it, even none, the
    file that [MapFS.Open] returns lists the directory, with the entries
    that [MapFS.ReadDir] returns for the path, and closes without error. *)
Theorem MapFS_Open_implied_directory_lists (synthPerm : Z)
    (fsys : gmap string MapFile) (name : string) :
  ValidPath name = true -> fsys !! name = None ->
  (name = "." \/
   exists rest f, fsys !! (name ++ "/" ++ rest)%string = Some f) ->
  exists h h' list,
    MapFS_Open synthPerm fsys name = (Some h, nil_error)
    /\ mapfile_ReadDir h (-1) = Some (h', (list, nil_error))
    /\ MapFS_ReadDir synthPerm fsys name = (sort_entries list, nil_error)
    /\ mapfile_Close h = nil_error.
Proof.
  intros Hvalid Hnone Himplied.
  destruct (fstest_Open_implied synthPerm fsys name Hvalid Hnone Himplied)
    as (elem & entry & Hopen).
  eexists _, _, _. split; [|split; [|split]].
  - unfold MapFS_Open. rewrite Hopen. simpl.
    rewrite lor_ModeDir_IsDir, Hnone, bool_decide_true by reflexivity.
    reflexivity.
  - simpl. rewrite andb_false_r. reflexivity.
  - unfold MapFS_ReadDir, fstest_ReadDir. rewrite Hopen. simpl.
    rewrite andb_false_r. reflexivity.
  - reflexivity.
Qed.

Lemma MapFS_Open_implied_directory_lists_witness :
  exists h h' list,
    MapFS_Open 0 implied "dir" = (Some h, nil_error)
    /\ mapfile_ReadDir h (-1) = Some (h', (list, nil_error))
    /\ MapFS_ReadDir 0 implied "dir" = (sort_entries list, nil_error)
    /\ mapfile_Close h = nil_error.
Proof.
  apply (MapFS_Open_implied_directory_lists 0 implied "dir").
  - vm_compute; reflexivity.
  - vm_compute; reflexivity.
  - right. exists "file", (mkMapFile (list_byte_of_string "Hello World!")
                             perm_0644 0).
    vm_compute; reflexivity.
Defined.

(** [fstest.MapFS.Open] on a valid path whose record is a directory. *)
Lemma fstest_Open_declared_dir (synthPerm : Z) (fsys : gmap string MapFile)
    (name : string) (f : MapFile) :
  ValidPath name = true -> fsys !! name = Some f ->
  Z.land (Mode f) ModeDir <> 0 ->
  exists elem entry,
    fstest_Open synthPerm fsys name
    = inr (mapDir name (mkMapFileInfo elem f) entry 0).
Proof.
  intros Hvalid Hf Hdir. unfold fstest_Open. rewrite Hvalid, Hf. simpl.
  destruct (Z.eqb_spec (Z.land (Mode f) ModeDir) 0); [contradiction|].
  destruct (if bool_decide (name = ".")
            then foldr scan_root ([], ∅) (map_to_list fsys)
            else foldr (scan_dir (name ++ "/")) ([], ∅) (map_to_list fsys))
    as [children need].
  eexists _, _. reflexivity.
Qed.

(** X18. The read bit guards the opened file only.  For a valid path whose
    record is a directory without the owner read bit, [ReadDir] on the
    file that [MapFS.Open] returns is denied, while [MapFS.ReadDir] and
    [MapFS.Stat] on the path succeed. *)
Theorem MapFS_ReadDir_ignores_denial (synthPerm : Z)
    (fsys : gmap string MapFile) (name : string) (f : MapFile) :
  ValidPath name = true -> fsys !! name = Some f ->
  Z.land (Mode f) ModeDir <> 0 ->
  Z.land (Perm (Mode f)) perm_0400 = 0 ->
  exists h info,
    MapFS_Open synthPerm fsys name = (Some h, nil_error)
    /\ (forall count, mapfile_ReadDir h count = Some (h, ([], ErrPermission)))
    /\ snd (MapFS_ReadDir synthPerm fsys name) = nil_error
    /\ MapFS_Stat synthPerm fsys name = (Some info, nil_error)
    /\ fi_Mode info = Mode f.
Proof.
  intros Hvalid Hf Hdir Hperm.
  destruct (fstest_Open_declared_dir synthPerm fsys name f Hvalid Hf Hdir)
    as (elem & entry & Hopen).
  eexists _, _. split; [|split; [|split; [|split]]].
  - unfold MapFS_Open. rewrite Hopen. simpl.
    rewrite Hf, bool_decide_false by discriminate.
    rewrite andb_false_r, Hperm. reflexivity.
  - intros count. reflexivity.
  - unfold MapFS_ReadDir, fstest_ReadDir. rewrite Hopen. simpl.
    rewrite andb_false_r. reflexivity.
  - unfold MapFS_Stat, fstest_Stat. rewrite Hopen. reflexivity.
  - reflexivity.
Qed.

Lemma MapFS_ReadDir_ignores_denial_witness :
  exists h info,
    MapFS_Open perm_0555 locked_dir "vault" = (Some h, nil_error)
    /\ (forall count, mapfile_ReadDir h count = Some (h, ([], ErrPermission)))
    /\ snd (MapFS_ReadDir perm_0555 locked_dir "vault") = nil_error
    /\ MapFS_Stat perm_0555 locked_dir "vault" = (Some info, nil_error)
    /\ fi_Mode info = ModeDir.
Proof.
  apply (MapFS_ReadDir_ignores_denial perm_0555 locked_dir "vault"
           (mkMapFile [] ModeDir 0)).
  - vm_compute; reflexivity.
  - vm_compute; reflexivity.
  - vm_compute; discriminate.
  - vm_compute; reflexivity.
Defined.

(** ** Views below a path *)

Lemma mapfile_Stat_unwrapped (u : file) :
  is_wrapped u = false -> snd (mapfile_Stat u) = nil_error.
Proof. destruct u; simpl; intros; congruence. Qed.

(** X19. [MapFS.Sub] fails exactly when [MapFS.Open] fails on the same
    path, and with the same error; when it succeeds, the view it returns
    is the map with the path, and the root of the view can be opened. *)
Theorem MapFS_Sub_fails_as_Open (synthPerm : Z) (fsys : gmap string MapFile)
    (name : string) :
  snd (MapFS_Sub synthPerm fsys name) = snd (MapFS_Open synthPerm fsys name)
  /\ (snd (MapFS_Sub synthPerm fsys name) = nil_error ->
      fst (MapFS_Sub synthPerm fsys name) = Some (fsys, name)
      /\ exists h, subFS_Open synthPerm fsys name "." = (Some h, nil_error)).
Proof.
  unfold subFS_Open, subFS_fullName.
  rewrite bool_decide_true by reflexivity.
  unfold MapFS_Sub, MapFS_Stat, fstest_Stat, MapFS_Open.
  destruct (fstest_Open_cases synthPerm fsys name)
    as [H|[(info & H)|(info & entry & H)]]; rewrite H; simpl.
  - split; [reflexivity|discriminate].
  - split.
    + destruct (_ && _); [reflexivity|]. destruct (_ =? 0); reflexivity.
    + intros _. split; [reflexivity|].
      destruct (_ && _); [eauto|]. destruct (_ =? 0); eauto.
  - split.
    + destruct (_ && _); [reflexivity|]. destruct (_ =? 0); reflexivity.
    + intros _. split; [reflexivity|].
      destruct (_ && _); [eauto|]. destruct (_ =? 0); eauto.
Qed.

Lemma dot_slash_invalid (name : string) :
  ValidPath ("." ++ "/" ++ name) = false.
Proof.
  unfold ValidPath.
  destruct (utf8_ValidString ("." ++ "/" ++ name)); [|reflexivity].
  change ("." ++ "/" ++ name)%string
    with (String "."%char (String "/"%char name)).
  rewrite bool_decide_false by discriminate.
  cbn [negb split_path].
  rewrite bool_decide_false by discriminate.
  rewrite bool_decide_true by reflexivity.
  destruct (split_path name); reflexivity.
Qed.

(** X20. The view of the root opens nothing but the root.  [MapFS.Sub] of
    [.] succeeds, but the view puts [./] before every other name, which
    makes a path that is not valid: [Open] and [ReadLink] of the view fail
    with "file does not exist" for every name other than [.]. *)
Theorem subFS_of_root_opens_only_root (synthPerm : Z)
    (fsys : gmap string MapFile) (name : string) :
  name <> "." ->
  MapFS_Sub synthPerm fsys "." = (Some (fsys, "."), nil_error)
  /\ subFS_Open synthPerm fsys "." name
     = (None, PathError "open" ("." ++ "/" ++ name) ErrNotExist)
  /\ subFS_ReadLink fsys "." name
     = ("", PathError "readlink" ("." ++ "/" ++ name) ErrNotExist).
Proof.
  intros Hname. split; [|split].
  - unfold MapFS_Sub, MapFS_Stat, fstest_Stat.
    destruct (fstest_Open_cases synthPerm fsys ".")
      as [H|[(info & H)|(info & entry & H)]]; rewrite H;
      [|reflexivity..].
    exfalso. revert H. unfold fstest_Open.
    change (ValidPath ".") with true. cbn [negb].
    destruct (fsys !! ".") as [f|].
    + destruct (Z.land (Mode f) ModeDir =? 0); [discriminate|].
      rewrite bool_decide_true by reflexivity.
      destruct (foldr scan_root ([], ∅) (map_to_list fsys)). discriminate.
    + rewrite bool_decide_true by reflexivity.
      destruct (foldr scan_root ([], ∅) (map_to_list fsys)). discriminate.
  - unfold subFS_Open, subFS_fullName.
    rewrite (bool_decide_false _ Hname).
    apply MapFS_Open_invalid_path, dot_slash_invalid.
  - unfold subFS_ReadLink, subFS_fullName, MapFS_ReadLink.
    rewrite (bool_decide_false _ Hname), dot_slash_invalid. reflexivity.
Qed.

Lemma subFS_of_root_opens_only_root_witness :
  MapFS_Sub perm_0555 test_a "." = (Some (test_a, "."), nil_error)
  /\ subFS_Open perm_0555 test_a "." "dir"
     = (None, PathError "open" ("." ++ "/" ++ "dir") ErrNotExist)
  /\ subFS_ReadLink test_a "." "dir"
     = ("", PathError "readlink" ("." ++ "/" ++ "dir") ErrNotExist).
Proof.
  apply (subFS_of_root_opens_only_root perm_0555 test_a "dir").
  discriminate.
Defined.

(** ** Symmetry of the metadata check *)

Lemma land_ModeDir_of_Type (m : Z) :
  Z.land m ModeDir = Z.land (Type_ m) ModeDir.
Proof. unfold Type_. rewrite <- Z.land_assoc. reflexivity. Qed.

(** X21. For file informations whose [IsDir] is the directory bit of their
    [Mode], as those of [fs.FileMode] are, the check of [equalStat] does
    not depend on which side is the source. *)
Theorem equalStatInfo_symmetric (si ti : FileInfo) :
  fi_IsDir si = IsDir (fi_Mode si) ->
  fi_IsDir ti = IsDir (fi_Mode ti) ->
  equalStatInfo si ti = nil_error <-> equalStatInfo ti si = nil_error.
Proof.
  intros Hs Ht. rewrite !equalStatInfo_nil_iff. unfold same_metadata.
  assert (Hdir : Type_ (fi_Mode si) = Type_ (fi_Mode ti) ->
                 fi_IsDir si = fi_IsDir ti).
  { intros Htype. rewrite Hs, Ht. unfold IsDir.
    rewrite (land_ModeDir_of_Type (fi_Mode si)), Htype,
      <- land_ModeDir_of_Type. reflexivity. }
  split; intros (Htype & Hperm & Hm & Ha & Hc & Hsize);
    (split; [congruence|]);
    (split; [destruct Hperm as [?|[?|?]]; auto|]);
    (split; [destruct Hm as [?|[?|?]]; auto|]);
    (split; [destruct Ha as [?|[?|?]]; auto|]);
    (split; [destruct Hc as [?|[?|?]]; auto|]).
  - rewrite <- (Hdir Htype). destruct Hsize; auto.
  - rewrite (Hdir (eq_sym Htype)). destruct Hsize; auto.
Qed.

Lemma equalStatInfo_symmetric_witness :
  equalStatInfo (mkFileInfo "file" 12 perm_0644 0 false 0 0)
    (mkFileInfo "file" 12 0 5 false 0 0) = nil_error
  <-> equalStatInfo (mkFileInfo "file" 12 0 5 false 0 0)
        (mkFileInfo "file" 12 perm_0644 0 false 0 0) = nil_error.
Proof.
  apply (equalStatInfo_symmetric
           (mkFileInfo "file" 12 perm_0644 0 false 0 0)
           (mkFileInfo "file" 12 0 5 false 0 0));
    vm_compute; reflexivity.
Defined.

(** ** Files of the map file system that differ *)

(** [MapFS.Open] on a valid path whose record is a regular file with the
    owner read bit returns the file of [testing/fstest] as it is. *)
Lemma MapFS_Open_readable_file (synthPerm : Z) (fsys : gmap string MapFile)
    (name : string) (f : MapFile) :
  ValidPath name = true -> fsys !! name = Some f ->
  Z.land (Mode f) ModeDir = 0 ->
  Z.land (Perm (Mode f)) perm_0400 <> 0 ->
  MapFS_Open synthPerm fsys name
  = (Some (openMapFile name (mkMapFileInfo (path_Base name) f) 0), nil_error)
  /\ MapFS_Stat synthPerm fsys name
     = (Some (mapFileInfo_FileInfo (mkMapFileInfo (path_Base name) f)),
        nil_error).
Proof.
  intros Hvalid Hf Hdir Hperm.
  unfold MapFS_Open, MapFS_Stat, fstest_Stat, fstest_Open.
  rewrite Hvalid, Hf. simpl. rewrite Hdir. simpl. rewrite Hdir. simpl.
  destruct (Z.eqb_spec (Z.land (Perm (Mode f)) perm_0400) 0);
    [contradiction|]. split; reflexivity.
Qed.

(** The first [Read] of a file of [testing/fstest] whose data fit in the
    buffer. *)
Lemma openMapFile_Read_all (path : string) (info : mapFileInfo) (n : nat) :
  (0 < length (Data (mfi_f info)) <= n)%nat ->
  snd (mapfile_Read (openMapFile path info 0) n)
  = (Data (mfi_f info), nil_error).
Proof.
  intros Hlen. simpl. unfold len.
  destruct (Z.geb_spec 0 (Z.of_nat (length (Data (mfi_f info))))); [lia|].
  change (Z.to_nat 0) with 0%nat. rewrite drop_0.
  rewrite firstn_all2 by lia. reflexivity.
Qed.

(** X22. Two map file systems that declare, at one valid path, regular
    readable files of the same mode, modification time and length but of
    different bytes: with a buffer whose half holds the files, [equalFile]
    returns a content mismatch that gives the two contents, under
    operation "equal" and the path. *)
Theorem equalFile_content_mismatch (synthPerm1 synthPerm2 : Z)
    (fsys1 fsys2 : gmap string MapFile) (name : string) (f1 f2 : MapFile)
    (fuel : nat) (buf : list byte) :
  ValidPath name = true ->
  fsys1 !! name = Some f1 -> fsys2 !! name = Some f2 ->
  Mode f1 = Mode f2 -> ModTime f1 = ModTime f2 ->
  Z.land (Mode f1) ModeDir = 0 ->
  Z.land (Perm (Mode f1)) perm_0400 <> 0 ->
  length (Data f1) = length (Data f2) ->
  (0 < length (Data f1) <= length buf / 2)%nat ->
  Data f1 <> Data f2 ->
  result (equalFile (MapFS_FS synthPerm1 fsys1) (MapFS_FS synthPerm2 fsys2)
            (S fuel) name buf)
  = Return (PathError "equal" name
              (ErrorfW (Errorf "file content mismatch: want=%q got=%q"
                          [ArgBytes (Data f1); ArgBytes (Data f2)]))).
Proof.
  intros Hvalid Hf1 Hf2 Hmode Htime Hdir Hperm Hlen Hfit Hdata.
  destruct (MapFS_Open_readable_file synthPerm1 fsys1 name f1)
    as [Ho1 Hs1]; auto.
  destruct (MapFS_Open_readable_file synthPerm2 fsys2 name f2)
    as [Ho2 Hs2]; try rewrite <- Hmode; auto.
  unfold equalFile.
  rewrite (result_bind_Return _ _ nil_error).
  2:{ unfold equalStat. cbn [fs_Stat MapFS_FS]. rewrite Hs1, Hs2.
      rewrite !result_call_bind. cbn [negb is_nil].
      rewrite !result_call_bind. cbn [negb is_nil result snd ret].
      f_equal. apply equalStatInfo_nil_iff. unfold same_metadata. simpl.
      unfold len. rewrite Hmode, Htime, Hlen. tauto. }
  cbn [negb is_nil fs_Open MapFS_FS].
  rewrite Ho1, result_call_bind. cbv beta iota.
  unfold defer_Close. cbn [is_nil]. rewrite result_defer.
  rewrite Ho2, result_call_bind. cbv beta iota.
  cbn [is_nil]. rewrite result_defer.
  cbn [negb is_nil orb andb].
  rewrite (result_bind_Return _ _
             (Errorf "file content mismatch: want=%q got=%q"
                [ArgBytes (Data f1); ArgBytes (Data f2)])); [reflexivity|].
  rewrite equalData_halves, equalData_loop_step.
  cbn [file_Read MapFS_FS].
  pose proof (Nat.Div0.mul_div_le (length buf) 2) as Hhalf.
  rewrite !openMapFile_Read_all by (cbn [mfi_f]; lia).
  cbn [mfi_f].
  unfold round_outcome, bytes_Equal. cbn [fst snd].
  rewrite (bool_decide_true _ Hlen), (bool_decide_false _ Hdata).
  reflexivity.
Qed.

Lemma equalFile_content_mismatch_witness :
  result (equalFile (MapFS_FS perm_0555 test_a)
            (MapFS_FS perm_0555
               (<["dir/file" :=
                    mkMapFile (list_byte_of_string "Hello There!")
                      perm_0644 0]> test_a))
            1 "dir/file" (make_bytes 1024))
  = Return (PathError "equal" "dir/file"
              (ErrorfW (Errorf "file content mismatch: want=%q got=%q"
                          [ArgBytes (list_byte_of_string "Hello World!");
                           ArgBytes (list_byte_of_string "Hello There!")]))).
Proof.
  apply (equalFile_content_mismatch perm_0555 perm_0555 test_a
           (<["dir/file" :=
                mkMapFile (list_byte_of_string "Hello There!")
                  perm_0644 0]> test_a)
           "dir/file"
           (mkMapFile (list_byte_of_string "Hello World!") perm_0644 0)
           (mkMapFile (list_byte_of_string "Hello There!") perm_0644 0)
           0 (make_bytes 1024)).
  - vm_compute; reflexivity.
  - vm_compute; reflexivity.
  - vm_compute; reflexivity.
  - reflexivity.
  - reflexivity.
  - vm_compute; reflexivity.
  - vm_compute; discriminate.
  - reflexivity.
  - change (0 < 12 <= 512)%nat. lia.
  - vm_compute. discriminate.
Defined.
